(** * Material classificator

    A shallow embedding of [classificator.py]: the taxonomy loader
    ([get_material_data]), the three taxonomy look-ups, the answer corrector
    ([correct_answer_from_list]) and the three-stage workflow
    ([start_workflow]), followed by the properties established about them.

    Python values are modelled by an inductive type, insertion-ordered
    dictionaries by association lists with unique keys, exceptions by an
    error result, and the external collaborators (the workbook reader, the
    search agent and the language model) by an environment of functions.
    The language model is a function of the queries made so far and of the
    current query, so that a run is replayable and every call is logged. *)

From Stdlib Require Import ZArith Lia.
From Equations Require Import Equations.
From stdpp Require Import base list strings.

Open Scope Z_scope.

(** ** Python values, exceptions and results *)

(** The value of a spreadsheet cell, when it is not empty. *)
Inductive value :=
| VStr (s : string)
| VInt (z : Z).

#[global] Instance value_eq_dec : EqDecision value.
Proof. solve_decision. Defined.

(** [cell.value]: [None] for an empty cell. *)
Abbreviation cell := (option value) (only parsing).
Abbreviation row := (list cell) (only parsing).

Inductive exn :=
| TypeError (msg : string)
| KeyError (key : value)
| IndexError
| FileNotFoundError
| OtherException (name : string).

Definition is_TypeError (e : exn) : bool :=
  match e with TypeError _ => true | _ => false end.

Definition is_FileNotFoundError (e : exn) : bool :=
  match e with FileNotFoundError => true | _ => false end.

Inductive result (A : Type) :=
| Ok (a : A)
| Raise (e : exn).
Arguments Ok {A} a.
Arguments Raise {A} e.

Definition rbind {A B} (r : result A) (k : A -> result B) : result B :=
  match r with
  | Ok a => k a
  | Raise e => Raise e
  end.

Declare Scope result_scope.
Delimit Scope result_scope with res.
Notation "'let*' x := c 'in' k" := (rbind c (fun x => k))
  (at level 10, x name, c at level 100, k at level 200) : result_scope.

(** Truth value of a Python object: the empty string and zero are false. *)
Definition truthy (v : value) : bool :=
  match v with
  | VStr s => negb (bool_decide (s = EmptyString))
  | VInt z => negb (Z.eqb z 0)
  end.

(** [not x] for a cell value: [None] is false as well. *)
Definition py_not_cell (c : cell) : bool :=
  match c with
  | None => true
  | Some v => negb (truthy v)
  end.

(** [l[i]] for a non-negative index. *)
Definition py_index {A} (l : list A) (i : nat) : result A :=
  match l !! i with
  | Some x => Ok x
  | None => Raise IndexError
  end.

(** ** Insertion-ordered dictionaries *)

Module Dict.
Definition t (V : Type) : Type := list (value * V).

Definition keys {V} (d : t V) : list value := d.*1.

(** [k in d] *)
Definition contains {V} (k : value) (d : t V) : bool :=
  bool_decide (k ∈ keys d).

Fixpoint get {V} (k : value) (d : t V) : option V :=
  match d with
  | [] => None
  | (k', v) :: rest => if decide (k = k') then Some v else get k rest
  end.

(** [d[k]] *)
Definition getitem {V} (k : value) (d : t V) : result V :=
  match get k d with
  | Some v => Ok v
  | None => Raise (KeyError k)
  end.

(** [d[k] = v]: an existing key keeps its position, a new key goes last. *)
Fixpoint set {V} (k : value) (v : V) (d : t V) : t V :=
  match d with
  | [] => [(k, v)]
  | (k', v') :: rest =>
      if decide (k = k') then (k, v) :: rest else (k', v') :: set k v rest
  end.
End Dict.

(** [{category: {subcategory: [grades]}}] *)
Definition taxonomy : Type := Dict.t (Dict.t (list value)).

(** ** The outside world *)

(** A call of a prompt chain. *)
Inductive query :=
| Classify (material info : string) (options : list value)
| Correct (answer : string) (options : list value).

(** What [chain.invoke] does: it returns a message whose content is the
    string [s], or a message whose content cannot be read ([e] is raised on
    reading it), or it raises [e] itself. *)
Inductive response :=
| Reply (s : string)
| Unreadable (e : exn)
| InvokeRaises (e : exn).

(** Lines written by [print]. *)
Inductive message :=
| MsgFileNotFound (file : string)
| MsgLoadFailed (e : exn)
| MsgGaveUp (answer : string) (counter : Z)
| MsgWrongType.

(** A worksheet opened with [read_only=True] is parsed while it is
    iterated: the iteration yields [sheet_rows], row 1 first, and then ends
    or, when [sheet_error] holds an exception, raises it. *)
Record worksheet := Worksheet {
  sheet_rows : list row;
  sheet_error : option exn
}.

(** A sheet whose rows are all read. *)
Definition delivered (rows : list row) : worksheet :=
  {| sheet_rows := rows; sheet_error := None |}.

(** [load_workbook] opens the file and gives its active sheet. *)
Record env := Env {
  load_workbook : string -> result worksheet;
  agent_executor : string -> result string;
  llm : list query -> query -> response
}.

Record world := World {
  calls : list query;
  stdout : list message
}.

Definition M (A : Type) : Type := world -> result A * world.

Definition ret {A} (a : A) : M A := fun w => (Ok a, w).

Definition raise {A} (e : exn) : M A := fun w => (Raise e, w).

Definition bind {A B} (m : M A) (k : A -> M B) : M B :=
  fun w =>
    match m w with
    | (Ok a, w') => k a w'
    | (Raise e, w') => (Raise e, w')
    end.

Definition lift {A} (r : result A) : M A := fun w => (r, w).

Declare Scope M_scope.
Delimit Scope M_scope with M.
Notation "'let*' x := c 'in' k" := (bind c (fun x => k))
  (at level 10, x name, c at level 100, k at level 200) : M_scope.

Definition print (m : message) (w : world) : world :=
  {| calls := calls w; stdout := stdout w ++ [m] |}.

Definition invoke (e : env) (q : query) (w : world) : response * world :=
  (llm e (calls w) q, {| calls := calls w ++ [q]; stdout := stdout w |}).

(** ** Calls with keyword arguments

    A call binds its positional arguments to the first parameters and its
    keyword arguments by name; a surplus positional argument, a keyword that
    names no parameter or an already bound one, and a parameter without
    default left unbound each raise [TypeError].  Only the shape of the call
    is checked here: [npos] positional arguments and the keywords [kws]. *)

Record param := Param { pname : string; has_default : bool }.

Definition bind_arguments (fname : string) (params : list param)
    (npos : nat) (kws : list string) : result unit :=
  if bool_decide (length params < npos)%nat then
    Raise (TypeError (fname ++ "() takes too many positional arguments"))
  else
    let positional := pname <$> take npos params in
    match list_find (fun k => k ∉ pname <$> params) kws with
    | Some (_, k) =>
        Raise (TypeError (fname ++ "() got an unexpected keyword argument '" ++ k ++ "'"))
    | None =>
        if bool_decide (Exists (fun k => k ∈ positional) kws) then
          Raise (TypeError (fname ++ "() got multiple values for an argument"))
        else if bool_decide (Forall (fun p => has_default p = true \/ pname p ∈ positional ++ kws) params) then
          Ok tt
        else
          Raise (TypeError (fname ++ "() missing a required argument"))
    end.

Definition py_call {A} (fname : string) (params : list param)
    (npos : nat) (kws : list string) (body : M A) : M A :=
  match bind_arguments fname params npos kws with
  | Ok _ => body
  | Raise e => raise e
  end.

(** ** The taxonomy loader *)

(** Lines 42 to 47: the three guarded insertions of one row. *)
Definition record_grade (category subcategory grade : value)
    (material_data_dict : taxonomy) : result taxonomy :=
  (let d :=
     if Dict.contains category material_data_dict then material_data_dict
     else Dict.set category [] material_data_dict in
   let* subs := Dict.getitem category d in
   let subs :=
     if Dict.contains subcategory subs then subs
     else Dict.set subcategory [] subs in
   let* grades := Dict.getitem subcategory subs in
   let grades :=
     if bool_decide (grade ∈ grades) then grades else grades ++ [grade] in
   Ok (Dict.set category (Dict.set subcategory grades subs) d))%res.

(** The body of the loop over the rows, lines 32 to 47; a row that is
    skipped ([continue]) leaves the dictionary as it is. *)
Definition loop_body (r : row) (material_data_dict : taxonomy) : result taxonomy :=
  (let* c0 := py_index r 0 in
   match c0 with
   | None => Ok material_data_dict
   | Some _ =>
       let* category := py_index r 5 in
       let* subcategory := py_index r 6 in
       let* grade := py_index r 0 in
       if py_not_cell category || py_not_cell subcategory || py_not_cell grade
       then Ok material_data_dict
       else
         match category, subcategory, grade with
         | Some c, Some s, Some g => record_grade c s g material_data_dict
         | _, _, _ => Ok material_data_dict
         end
   end)%res.

Fixpoint scan_rows (rows : list row) (material_data_dict : taxonomy) : result taxonomy :=
  match rows with
  | [] => Ok material_data_dict
  | r :: rest =>
      (let* d := loop_body r material_data_dict in scan_rows rest d)%res
  end.

(** [iter_rows(min_row=2)]: every row of the sheet but the first. *)
Definition iter_rows_from_2 (sheet : list row) : list row := drop 1 sheet.

(** Only the call of [load_workbook] stands inside the [try] block: an
    exception of the loop body, or of the sheet while its rows are read,
    leaves the function. *)
Definition get_material_data (e : env) (material_list_file : string) : M taxonomy :=
  fun w =>
    match load_workbook e material_list_file with
    | Raise ex =>
        if is_FileNotFoundError ex
        then (Ok [], print (MsgFileNotFound material_list_file) w)
        else (Ok [], print (MsgLoadFailed ex) w)
    | Ok mat_ws =>
        match scan_rows (iter_rows_from_2 (sheet_rows mat_ws)) [] with
        | Raise ex => (Raise ex, w)
        | Ok material_data_dict =>
            match sheet_error mat_ws with
            | Some ex => (Raise ex, w)
            | None => (Ok material_data_dict, w)
            end
        end
    end.

(** ** Taxonomy look-ups *)

Definition get_categories (material_data : taxonomy) : list value :=
  Dict.keys material_data.

Definition get_subcategories (material_data : taxonomy) (category : value)
    : result (list value) :=
  (let* subs := Dict.getitem category material_data in Ok (Dict.keys subs))%res.

Definition get_grades (material_data : taxonomy) (category subcategory : value)
    : result (list value) :=
  (let* subs := Dict.getitem category material_data in
   Dict.getitem subcategory subs)%res.

(** ** The oracles

    Loading the credentials and building a model, a prompt and a chain are
    taken to succeed without effect; a call of the chain is a call of
    [invoke], and a call of the search agent one of [agent_executor]. *)

Definition get_material_information (e : env) (material_name : string) : M string :=
  lift (agent_executor e material_name).

Definition classify_material_params : list param :=
  [Param "material_name" false; Param "material_information" false;
   Param "options" false].

Definition classify_material (e : env) (material_name material_information : string)
    (options : list value) : M string :=
  fun w =>
    match invoke e (Classify material_name material_information options) w with
    | (Reply content, w1) => (Ok content, w1)
    | (Unreadable ex, w1) => (Raise ex, w1)
    | (InvokeRaises ex, w1) => (Raise ex, w1)
    end.

(** ** The answer corrector *)

Definition default_counter : Z := 0.
Definition default_max_attempts : Z := 3.

(** The recursive call passes [counter] and leaves [max_attempts] to its
    default; its value is dropped, since the call is a statement and the
    function then falls off its end.  The call stands inside the [try]
    block, whose handler catches [TypeError] only. *)
Equations? correct_answer_from_list (e : env) (answer : string)
    (options : list value) (counter max_attempts : Z) (w : world)
    : result (option string) * world
    by wf (Z.to_nat (Z.max max_attempts default_max_attempts - counter)) lt :=
  correct_answer_from_list e answer options counter max_attempts w
    with Z_ge_dec counter max_attempts => {
    | left _ => (Ok None, print (MsgGaveUp answer counter) w)
    | right _ =>
        match invoke e (Correct answer options) w with
        | (InvokeRaises ex, w1) => (Raise ex, w1)
        | (Unreadable ex, w1) =>
            if is_TypeError ex then (Ok None, print MsgWrongType w1)
            else (Raise ex, w1)
        | (Reply new_answer, w1) =>
            if bool_decide (VStr new_answer ∈ options)
            then (Ok (Some new_answer), w1)
            else
              match correct_answer_from_list e new_answer options (counter + 1)
                      default_max_attempts w1 with
              | (Ok _, w2) => (Ok None, w2)
              | (Raise ex, w2) =>
                  if is_TypeError ex then (Ok None, print MsgWrongType w2)
                  else (Raise ex, w2)
              end
        end }.
Proof. unfold default_max_attempts. lia. Qed.

(** ** The workflow *)

Record classification := Classification {
  category : string;
  subcategory : string;
  grade : string
}.

(** [not x] for the value of a stage: [None] and the empty string. *)
Definition py_not (x : option string) : bool :=
  match x with
  | None => true
  | Some s => bool_decide (s = EmptyString)
  end.

(** The check, the correction and the fallback that follow each
    classification (lines 256 to 260, 266 to 270 and 278 to 282). *)
Definition check_and_correct (e : env) (answer : string) (options : list value)
    : M string :=
  (let* mat :=
     if negb (bool_decide (VStr answer ∈ options))
     then correct_answer_from_list e answer options default_counter default_max_attempts
     else ret (Some answer) in
   ret (if py_not mat then "Other"%string else default "Other"%string mat))%M.

(** A stage as the subcategory and grade stages write it: the options are
    passed by position (lines 264 to 270 and 276 to 282). *)
Definition resolve_stage (e : env) (material_name material_info : string)
    (options : list value) : M string :=
  (let* mat :=
     py_call "classify_material" classify_material_params 3 []
       (classify_material e material_name material_info options) in
   check_and_correct e mat options)%M.

Definition start_workflow (e : env) (material_name : string)
    (material_db : taxonomy) : M classification :=
  (let* material_info := get_material_information e material_name in
   let categories := get_categories material_db in
   let* mat_category :=
     py_call "classify_material" classify_material_params 0
       ["material_name"; "material_information"; "categories"]%string
       (classify_material e material_name material_info categories) in
   let* mat_category := check_and_correct e mat_category categories in
   let* subcategories := lift (get_subcategories material_db (VStr mat_category)) in
   let* mat_subcategory := resolve_stage e material_name material_info subcategories in
   let* grades :=
     lift (get_grades material_db (VStr mat_category) (VStr mat_subcategory)) in
   let* mat_grade := resolve_stage e material_name material_info grades in
   ret {| category := mat_category;
          subcategory := mat_subcategory;
          grade := mat_grade |})%M.

(** ** Test doubles *)

Definition first_option (q : query) : string :=
  match q with
  | Classify _ _ (VStr s :: _) => s
  | Correct _ (VStr s :: _) => s
  | _ => EmptyString
  end.

Definition no_workbook : string -> result worksheet :=
  fun _ => Raise FileNotFoundError.

Definition describe_ok : string -> result string :=
  fun _ => Ok "a material"%string.

(** An oracle that always answers with a member of the options. *)
Definition mock_exact : env :=
  Env no_workbook describe_ok (fun _ q => Reply (first_option q)).

(** An oracle that never answers with a member of the options. *)
Definition mock_garbage : env :=
  Env no_workbook describe_ok (fun _ _ => Reply "garbage"%string).

(** An oracle whose first answer is close and whose second is exact. *)
Definition mock_second_try : env :=
  Env no_workbook describe_ok
    (fun history _ =>
       match history with
       | [] => Reply "steel"%string
       | _ => Reply "Steel"%string
       end).

(** An oracle whose second message cannot be read. *)
Definition mock_unreadable : env :=
  Env no_workbook describe_ok
    (fun history _ =>
       match history with
       | [] => Reply "steel"%string
       | _ => Unreadable (TypeError "__str__ returned non-string"%string)
       end).

Definition steel_taxonomy : taxonomy :=
  [(VStr "Metal", [(VStr "Ferrous", [VStr "Steel-A36"])])]%string.

Definition w0 : world := World [] [].

(** ** Reading a taxonomy *)

(** The grades listed under a category and a subcategory; none when a key
    is absent. *)
Definition grades_of (t : taxonomy) (category subcategory : value) : list value :=
  match get_grades t category subcategory with
  | Ok grades => grades
  | Raise _ => []
  end.

(** Row [r] carries the grade [g] in column 0, the category [c] in column 5
    and the subcategory [s] in column 6, and none of them is missing (an
    empty string and a zero count as missing). *)
Definition row_gives (r : row) (c s g : value) : Prop :=
  r !! 0%nat = Some (Some g) ∧ r !! 5%nat = Some (Some c) ∧ r !! 6%nat = Some (Some s)
  ∧ truthy g = true ∧ truthy c = true ∧ truthy s = true.

(** Row [r] has the cells that the loop reads: column 0, and columns 5 and
    6 unless the cell of column 0 is empty. *)
Definition row_ok (r : row) : bool :=
  match r !! 0%nat with
  | None => false
  | Some None => true
  | Some (Some _) => bool_decide (7 <= length r)%nat
  end.

(** No key is repeated and no branch is empty. *)
Definition tax_wf (t : taxonomy) : Prop :=
  NoDup (Dict.keys t)
  ∧ forall c subs, Dict.get c t = Some subs ->
      subs ≠ [] ∧ NoDup (Dict.keys subs)
      ∧ forall s grades, Dict.get s subs = Some grades ->
          grades ≠ [] ∧ NoDup grades.

(** A workbook whose active sheet has the rows [sheet]. *)
Definition workbook_env (sheet : list row) : env :=
  Env (fun _ => Ok (delivered sheet)) describe_ok (fun _ _ => Reply EmptyString).

(** What the specification says of the loader, for the sheet [sheet] of the
    file [file]: no error, the grades of a branch are those of the data rows
    (every row but the first) that carry the branch in columns 5 and 6, and
    nothing is listed twice. *)
Definition loader_as_specified (e : env) (file : string) (sheet : list row)
    (w : world) : Prop :=
  exists t,
    get_material_data e file w = (Ok t, w)
    ∧ (forall c s g,
          g ∈ grades_of t c s
          <-> exists i r, (1 <= i)%nat ∧ sheet !! i = Some r ∧ row_gives r c s g)
    ∧ NoDup (get_categories t)
    ∧ (forall c subs, get_subcategories t c = Ok subs -> NoDup subs)
    ∧ (forall c s grades, get_grades t c s = Ok grades -> NoDup grades).

(** A sheet with three columns only. *)
Definition narrow_sheet : list row :=
  [[Some (VStr "Grade"); Some (VStr "Standard"); Some (VStr "Density")];
   [Some (VStr "Steel-A36"); Some (VStr "ASTM"); Some (VInt 7850)]]%string.

(** A sheet with a header, two identical rows, a row without grade, a row
    without category and a row of another branch. *)
Definition sample_sheet : list row :=
  [[Some (VStr "Grade")];
   [Some (VStr "Steel-A36"); None; None; None; None;
    Some (VStr "Metal"); Some (VStr "Ferrous")];
   [None];
   [Some (VStr "Steel-A36"); None; None; None; None;
    Some (VStr "Metal"); Some (VStr "Ferrous")];
   [Some (VStr "X"); None; None; None; None; None; Some (VStr "Ferrous")];
   [Some (VStr "6061"); None; None; None; None;
    Some (VStr "Metal"); Some (VStr "Aluminium")]]%string.

(** The measure that decreases along the recursion of the corrector. *)
Definition budget (counter max_attempts : Z) : nat :=
  Z.to_nat (Z.max max_attempts default_max_attempts - counter).

(** ** Rows, triples and order of first appearance *)

(** The subcategories listed under a category; none when the key is
    absent. *)
Definition subcategories_of (t : taxonomy) (category : value) : list value :=
  match get_subcategories t category with
  | Ok subs => subs
  | Raise _ => []
  end.

(** The (category, subcategory, grade) that a row records: columns 5, 6
    and 0, when the three cells exist and hold true values. *)
Definition row_triple (r : row) : option (value * value * value) :=
  match r !! 0%nat, r !! 5%nat, r !! 6%nat with
  | Some (Some g), Some (Some c), Some (Some s) =>
      if truthy c && truthy s && truthy g then Some (c, s, g) else None
  | _, _, _ => None
  end.

(** The triples of the rows after the first, in the order of the sheet. *)
Definition sheet_triples (sheet : list row) : list (value * value * value) :=
  omap row_triple (iter_rows_from_2 sheet).

(** The guarded insertion [if x not in l: l.append(x)]. *)
Definition add_new (x : value) (l : list value) : list value :=
  if bool_decide (x ∈ l) then l else l ++ [x].

(** The elements of a list in the order of their first appearance. *)
Fixpoint nub (l : list value) : list value :=
  match l with
  | [] => []
  | x :: l => x :: filter (fun y => y ≠ x) (nub l)
  end.

(** [add_new] for each element of [l] in turn, starting from [acc]. *)
Definition add_all (acc l : list value) : list value :=
  foldl (fun acc x => add_new x acc) acc l.

(** The taxonomy of [sample_sheet]. *)
Definition sample_taxonomy : taxonomy :=
  [(VStr "Metal", [(VStr "Ferrous", [VStr "Steel-A36"]);
                   (VStr "Aluminium", [VStr "6061"])])]%string.

(** ** Runs of the corrector *)

(** The calls [new] of a run that starts from [answer] after [history]:
    each asks to correct, against the same options, the oracle's reply to
    the call before it (the first one asks about [answer]), and a further
    call follows only a readable reply that is not an option. *)
Fixpoint chained (e : env) (options : list value) (history : list query)
    (answer : string) (new : list query) : Prop :=
  match new with
  | [] => True
  | q :: rest =>
      q = Correct answer options
      ∧ (rest = []
         \/ exists s, llm e history q = Reply s ∧ (VStr s ∉ options)
                      ∧ chained e options (history ++ [q]) s rest)
  end.

(** What a run returns when an attempt does not get a readable reply;
    [retry] tells whether the attempt is a recursive continuation. *)
Definition failure_outcome (retry : bool) (r : response)
    : option (result (option string)) :=
  match r with
  | Reply _ => None
  | Unreadable ex => Some (if is_TypeError ex then Ok None else Raise ex)
  | InvokeRaises ex => Some (if is_TypeError ex && retry then Ok None else Raise ex)
  end.

(** Every message of the oracle can be read. *)
Definition readable (e : env) : Prop :=
  forall history q, exists s, llm e history q = Reply s.

(** The oracle never answers with a member of the options. *)
Definition never_member (e : env) (options : list value) : Prop :=
  forall history q s, llm e history q = Reply s -> VStr s ∉ options.

(** An oracle whose call fails with a time-out once it has answered. *)
Definition mock_timeout_retry : env :=
  Env no_workbook describe_ok
    (fun history _ =>
       match history with
       | [] => Reply "steel"%string
       | _ => InvokeRaises (OtherException "APITimeoutError"%string)
       end).

(** An oracle whose call fails with a [TypeError] once it has answered. *)
Definition mock_type_error_retry : env :=
  Env no_workbook describe_ok
    (fun history _ =>
       match history with
       | [] => Reply "steel"%string
       | _ => InvokeRaises (TypeError "expected str"%string)
       end).

(** ** Sources and responses that cannot be read *)

(** A sheet that fails, with the parser's exception, after its header and
    one row are read. *)
Definition broken_sheet : worksheet :=
  {| sheet_rows :=
       [[Some (VStr "Grade")];
        [Some (VStr "Steel-A36"); None; None; None; None;
         Some (VStr "Metal"); Some (VStr "Ferrous")]]%string;
     sheet_error := Some (OtherException "ParseError") |}.

Definition mock_broken_sheet : env :=
  Env (fun _ => Ok broken_sheet) describe_ok (fun _ _ => Reply EmptyString).

(** The source of the taxonomy cannot be read: the workbook does not load,
    or its sheet fails while it is read. *)
Definition unreadable_source (e : env) (file : string) : Prop :=
  (exists ex, load_workbook e file = Raise ex)
  \/ (exists ws ex, load_workbook e file = Ok ws ∧ sheet_error ws = Some ex).

(** What the specification says of a source that cannot be read: the
    loader raises nothing, reports the error and returns the empty
    taxonomy. *)
Definition unreadable_as_specified (e : env) (file : string) (w : world) : Prop :=
  unreadable_source e file ->
  (get_material_data e file w).1 = Ok []
  ∧ exists line, stdout (get_material_data e file w).2 = stdout w ++ [line].

(** The errors on the type or the format of a response: [TypeError],
    [ValueError] and [AttributeError]. *)
Definition is_type_or_format_error (ex : exn) : bool :=
  match ex with
  | TypeError _ => true
  | OtherException name =>
      bool_decide (name = "ValueError"%string \/ name = "AttributeError"%string)
  | _ => false
  end.

(** What the specification says of such an error met on reading a
    response, at any attempt of a run: no further call, and [None] for the
    top-level caller. *)
Definition read_errors_as_specified (e : env) (answer : string)
    (options : list value) (counter max_attempts : Z) (w : world) : Prop :=
  forall history q later ex,
    is_type_or_format_error ex = true ->
    calls (correct_answer_from_list e answer options counter max_attempts w).2
    = calls w ++ history ++ q :: later ->
    llm e (calls w ++ history) q = Unreadable ex ->
    later = []
    ∧ (correct_answer_from_list e answer options counter max_attempts w).1 = Ok None.

(** An oracle whose messages have a content of the wrong format. *)
Definition mock_value_error : env :=
  Env no_workbook describe_ok
    (fun _ _ => Unreadable (OtherException "ValueError"%string)).

(** ** The corrector: general facts *)

Lemma correct_answer_from_list_step e answer options counter max_attempts w :
  correct_answer_from_list e answer options counter max_attempts w =
  if Z_ge_dec counter max_attempts
  then (Ok None, print (MsgGaveUp answer counter) w)
  else
    match invoke e (Correct answer options) w with
    | (InvokeRaises ex, w1) => (Raise ex, w1)
    | (Unreadable ex, w1) =>
        if is_TypeError ex then (Ok None, print MsgWrongType w1)
        else (Raise ex, w1)
    | (Reply new_answer, w1) =>
        if bool_decide (VStr new_answer ∈ options)
        then (Ok (Some new_answer), w1)
        else
          match correct_answer_from_list e new_answer options (counter + 1)
                  default_max_attempts w1 with
          | (Ok _, w2) => (Ok None, w2)
          | (Raise ex, w2) =>
              if is_TypeError ex then (Ok None, print MsgWrongType w2)
              else (Raise ex, w2)
          end
    end.
Proof.
  simp correct_answer_from_list.
  destruct (Z_ge_dec counter max_attempts); reflexivity.
Qed.

Lemma budget_step counter max_attempts :
  ¬ counter >= max_attempts ->
  (budget (counter + 1) default_max_attempts < budget counter max_attempts)%nat.
Proof. unfold budget, default_max_attempts. lia. Qed.

(** Induction along the recursive calls of the corrector. *)
Lemma corrector_ind (e : env) (options : list value)
    (P : string -> Z -> Z -> world -> Prop) :
  (forall answer counter max_attempts w,
      (¬ counter >= max_attempts ->
       forall new_answer w1, P new_answer (counter + 1) default_max_attempts w1) ->
      P answer counter max_attempts w) ->
  forall answer counter max_attempts w, P answer counter max_attempts w.
Proof.
  intros step answer counter max_attempts.
  remember (budget counter max_attempts) as n eqn:Hn.
  revert answer counter max_attempts Hn.
  induction (lt_wf n) as [n _ IH].
  intros answer counter max_attempts -> w.
  apply step. intros Hlt new_answer w1.
  eapply IH; [ apply budget_step, Hlt | reflexivity ].
Qed.

(** The log only grows, by at most the budget: a run makes no more than
    [max max_attempts 3 - counter] oracle calls. *)
Lemma corrector_calls_extend e answer options counter max_attempts w :
  exists new,
    calls (correct_answer_from_list e answer options counter max_attempts w).2
    = calls w ++ new
    ∧ (length new <= budget counter max_attempts)%nat.
Proof.
  revert answer counter max_attempts w.
  apply (corrector_ind e options
           (fun answer counter max_attempts w => exists new,
                calls (correct_answer_from_list e answer options counter max_attempts w).2
                = calls w ++ new
                ∧ (length new <= budget counter max_attempts)%nat)).
  intros answer counter max_attempts w IH.
  rewrite correct_answer_from_list_step.
  destruct (Z_ge_dec counter max_attempts) as [Hge|Hlt].
  { exists []. simpl. rewrite app_nil_r. split; [ done | lia ]. }
  pose proof (budget_step counter max_attempts Hlt) as Hbudget.
  assert (Hone : (length [Correct answer options] <= budget counter max_attempts)%nat)
    by (simpl; lia).
  unfold invoke.
  destruct (llm e (calls w) (Correct answer options)) as [s|ex|ex].
  - case_bool_decide.
    + by exists [Correct answer options].
    + destruct (IH Hlt s {| calls := calls w ++ [Correct answer options];
                            stdout := stdout w |}) as (new & Hnew & Hlen).
      exists (Correct answer options :: new).
      split; [ | simpl; lia ].
      destruct (correct_answer_from_list e s options (counter + 1)
                  default_max_attempts _) as [[o|ex] w2]; simpl in *.
      * by rewrite Hnew, <- app_assoc.
      * destruct (is_TypeError ex); simpl; by rewrite Hnew, <- app_assoc.
  - exists [Correct answer options]. by destruct (is_TypeError ex).
  - by exists [Correct answer options].
Qed.

(** A value is returned by the first attempt only. *)
Lemma corrector_returns_first_reply e answer options counter max_attempts w v :
  (correct_answer_from_list e answer options counter max_attempts w).1 = Ok (Some v) ->
  llm e (calls w) (Correct answer options) = Reply v
  ∧ (correct_answer_from_list e answer options counter max_attempts w).2
    = (invoke e (Correct answer options) w).2.
Proof.
  rewrite correct_answer_from_list_step.
  destruct (Z_ge_dec counter max_attempts); [ discriminate | ].
  unfold invoke.
  destruct (llm e (calls w) (Correct answer options)) as [s|ex|ex]; simpl.
  - case_bool_decide as Hin.
    + simpl. by intros [= <-].
    + destruct (correct_answer_from_list e s options (counter + 1)
                  default_max_attempts _) as [[o|ex] w2]; simpl; [ discriminate | ].
      by destruct (is_TypeError ex).
  - by destruct (is_TypeError ex).
  - discriminate.
Qed.

(** A value that the corrector returns is a member of the options. *)
Lemma corrector_returns_member e answer options counter max_attempts w v :
  (correct_answer_from_list e answer options counter max_attempts w).1 = Ok (Some v) ->
  VStr v ∈ options.
Proof.
  rewrite correct_answer_from_list_step.
  destruct (Z_ge_dec counter max_attempts); [ discriminate | ].
  unfold invoke.
  destruct (llm e (calls w) (Correct answer options)) as [s|ex|ex]; simpl.
  - case_bool_decide as Hin.
    + simpl. by intros [= <-].
    + destruct (correct_answer_from_list e s options (counter + 1)
                  default_max_attempts _) as [[o|ex] w2]; simpl; [ discriminate | ].
      by destruct (is_TypeError ex).
  - by destruct (is_TypeError ex).
  - discriminate.
Qed.

(** ** The corrector: claims *)

(** C10: a call of [correct_answer_from_list] whose counter is at or above
    [max_attempts] on entry returns [None] at once: it raises no exception,
    makes no oracle call, and only prints that it gave up. *)
Theorem corrector_gives_up_on_entry e answer options counter max_attempts w :
  counter >= max_attempts ->
  let run := correct_answer_from_list e answer options counter max_attempts w in
  run.1 = Ok None
  ∧ calls run.2 = calls w
  ∧ stdout run.2 = stdout w ++ [MsgGaveUp answer counter].
Proof.
  intros Hge run. subst run.
  rewrite correct_answer_from_list_step.
  destruct (Z_ge_dec counter max_attempts); [ done | contradiction ].
Qed.

Lemma corrector_gives_up_on_entry_witness :
  let run := correct_answer_from_list mock_garbage "stel" [VStr "Steel"] 0 0 w0 in
  run.1 = Ok None
  ∧ calls run.2 = calls w0
  ∧ stdout run.2 = stdout w0 ++ [MsgGaveUp "stel" 0].
Proof. apply corrector_gives_up_on_entry. lia. Defined.

(** C6, as amended: when reading the oracle's response raises [TypeError] at some
    attempt of a corrector run ([q] is asked after [history], and [later]
    are the calls made after it), the run makes no further call and the
    top-level call returns [None]: the error does not reach the caller. *)
Theorem corrector_catches_type_error e answer options counter max_attempts w
    history q later msg :
  calls (correct_answer_from_list e answer options counter max_attempts w).2
  = calls w ++ history ++ q :: later ->
  llm e (calls w ++ history) q = Unreadable (TypeError msg) ->
  later = []
  ∧ (correct_answer_from_list e answer options counter max_attempts w).1 = Ok None.
Proof.
  revert answer counter max_attempts w history q later.
  apply (corrector_ind e options
           (fun answer counter max_attempts w => forall history q later,
                calls (correct_answer_from_list e answer options counter max_attempts w).2
                = calls w ++ history ++ q :: later ->
                llm e (calls w ++ history) q = Unreadable (TypeError msg) ->
                later = []
                ∧ (correct_answer_from_list e answer options counter max_attempts w).1
                  = Ok None)).
  intros answer counter max_attempts w IH history q later.
  rewrite correct_answer_from_list_step.
  destruct (Z_ge_dec counter max_attempts) as [Hge|Hlt].
  { simpl. intros Hcalls _. exfalso.
    rewrite <- (app_nil_r (calls w)) in Hcalls at 1.
    apply app_inv_head in Hcalls. by destruct history. }
  unfold invoke.
  set (Q := Correct answer options).
  assert (Hone :
             calls w ++ [Q] = calls w ++ history ++ q :: later ->
             history = [] ∧ q = Q ∧ later = []).
  { intros Heq. apply app_inv_head in Heq.
    destruct history as [|q' h]; simplify_eq/=; [ done | ].
    by destruct h. }
  destruct (llm e (calls w) Q) as [s|ex|ex] eqn:Hllm.
  - case_bool_decide as Hin.
    + simpl. intros Hcalls Hq.
      destruct (Hone Hcalls) as (-> & -> & ->).
      rewrite app_nil_r in Hq. congruence.
    + set (w1 := {| calls := calls w ++ [Q]; stdout := stdout w |}).
      specialize (IH Hlt s w1).
      destruct (corrector_calls_extend e s options (counter + 1)
                  default_max_attempts w1) as (new & Hnew & _).
      destruct (correct_answer_from_list e s options (counter + 1)
                  default_max_attempts w1) as [r w2] eqn:Hrec.
      simpl in Hnew, IH.
      intros Hcalls Hq.
      assert (Hw2 : calls w2 = calls w ++ history ++ q :: later).
      { destruct r as [o|ex]; [ done | by destruct (is_TypeError ex) ]. }
      clear Hcalls. rewrite Hnew in Hw2. simpl in Hw2.
      rewrite <- app_assoc in Hw2. apply app_inv_head in Hw2. simpl in Hw2.
      destruct history as [|q' h]; simplify_eq/=.
      { rewrite app_nil_r in Hq. congruence. }
      destruct (IH h q later) as [-> Hr].
      * by rewrite Hnew.
      * by rewrite <- app_assoc.
      * simpl in Hr. subst r. done.
  - intros Hcalls Hq.
    assert (Hw1 : calls w ++ [Q] = calls w ++ history ++ q :: later).
    { by destruct (is_TypeError ex). }
    destruct (Hone Hw1) as (-> & -> & ->).
    rewrite app_nil_r in Hq. rewrite Hllm in Hq. simplify_eq/=. done.
  - simpl. intros Hcalls Hq.
    destruct (Hone Hcalls) as (-> & -> & ->).
    rewrite app_nil_r in Hq. congruence.
Qed.

Lemma corrector_catches_type_error_witness :
  @nil query = []
  ∧ (correct_answer_from_list mock_unreadable "stel" [VStr "Steel"] 0 3 w0).1
    = Ok None.
Proof.
  apply (corrector_catches_type_error mock_unreadable "stel" [VStr "Steel"] 0 3 w0
           [Correct "stel" [VStr "Steel"]] (Correct "steel" [VStr "Steel"]) []
           "__str__ returned non-string");
    vm_compute; reflexivity.
Defined.

(** C6, as the specification words it, fails for an error of another
    class: a [ValueError] raised on reading the response is not caught, and
    the top-level call raises it instead of returning [None]. *)
Lemma read_errors_as_specified_fails :
  ¬ read_errors_as_specified mock_value_error "stel" [VStr "Steel"] 0 3 w0.
Proof.
  intros Hclaim.
  destruct (Hclaim [] (Correct "stel" [VStr "Steel"]) []
              (OtherException "ValueError")) as [_ Hnone];
    [ reflexivity | reflexivity | reflexivity | ].
  vm_compute in Hnone. discriminate.
Qed.

(** C3: the second attempt re-submits the oracle's own previous output,
    but its exact answer is lost: the top-level call returns [None] although
    the oracle's second answer, [Steel], is a member of the options. *)
Theorem corrector_drops_late_success :
  let options := [VStr "Steel"] in
  let run := correct_answer_from_list mock_second_try "stel" options 0 3 w0 in
  calls run.2 = [Correct "stel" options; Correct "steel" options]
  ∧ llm mock_second_try [Correct "stel" options] (Correct "steel" options)
    = Reply "Steel"
  ∧ VStr "Steel" ∈ options
  ∧ run.1 = Ok None.
Proof.
  cbv zeta. split; [ | split; [ | split ] ].
  - vm_compute. reflexivity.
  - reflexivity.
  - apply list_elem_of_here.
  - vm_compute. reflexivity.
Qed.

(** C4: called with [max_attempts = 1] and an oracle that never answers
    with an option, the corrector makes three oracle calls before it
    returns [None]. *)
Theorem corrector_exceeds_small_budget :
  let options := [VStr "Steel"] in
  let run := correct_answer_from_list mock_garbage "stel" options 0 1 w0 in
  run.1 = Ok None
  ∧ length (calls run.2) = 3%nat
  ∧ calls run.2
    = [Correct "stel" options; Correct "garbage" options; Correct "garbage" options].
Proof. cbv zeta. repeat split; vm_compute; reflexivity. Qed.

(** ** The workflow *)

Lemma classify_material_call_by_options :
  bind_arguments "classify_material" classify_material_params 0
    ["material_name"; "material_information"; "categories"]%string
  = Raise (TypeError
      "classify_material() got an unexpected keyword argument 'categories'").
Proof. reflexivity. Qed.

Lemma classify_material_call_by_position :
  bind_arguments "classify_material" classify_material_params 3 [] = Ok tt.
Proof. reflexivity. Qed.

(** The category stage names a parameter that [classify_material] does not
    have, so the workflow stops there whatever the taxonomy and the oracle. *)
Lemma start_workflow_unexpected_keyword e material_name material_db w info :
  agent_executor e material_name = Ok info ->
  start_workflow e material_name material_db w
  = (Raise (TypeError
       "classify_material() got an unexpected keyword argument 'categories'"), w).
Proof.
  intros Hinfo.
  unfold start_workflow, bind, get_material_information, lift.
  rewrite Hinfo. reflexivity.
Qed.

Lemma get_subcategories_absent (material_data : taxonomy) (category : value) :
  category ∉ get_categories material_data ->
  get_subcategories material_data category = Raise (KeyError category).
Proof.
  unfold get_subcategories, get_categories, Dict.getitem, Dict.keys.
  induction material_data as [|[k v] d IH]; simpl; [ done | ].
  intros Hnotin. apply not_elem_of_cons in Hnotin as [Hne Hnotin].
  destruct (decide (category = k)); [ done | ].
  specialize (IH Hnotin). by destruct (Dict.get category d).
Qed.

(** C1: with the taxonomy [{Metal: {Ferrous: [Steel-A36]}}] and an oracle
    that always answers with a member of the options, the workflow for
    [steel] raises [TypeError] at the category stage, before any oracle
    call, instead of returning the record. *)
Theorem start_workflow_steel_raises :
  start_workflow mock_exact "steel" steel_taxonomy w0
  = (Raise (TypeError
       "classify_material() got an unexpected keyword argument 'categories'"),
     w0)
  ∧ (forall record, (start_workflow mock_exact "steel" steel_taxonomy w0).1 ≠ Ok record).
Proof.
  rewrite (start_workflow_unexpected_keyword mock_exact "steel" steel_taxonomy w0
             "a material" eq_refl).
  split; [ reflexivity | intros record; discriminate ].
Qed.

(** C5: with an oracle that never answers with an option and a taxonomy
    without an [Other] category, the workflow neither yields the all-[Other]
    record nor reaches the look-up of stage 2 (which would raise [KeyError]):
    it raises [TypeError] at the category stage. *)
Theorem start_workflow_garbage_raises_type_error :
  let run := start_workflow mock_garbage "steel" steel_taxonomy w0 in
  (VStr "Other" ∉ get_categories steel_taxonomy)
  ∧ get_subcategories steel_taxonomy (VStr "Other") = Raise (KeyError (VStr "Other"))
  ∧ run.1 = Raise (TypeError
       "classify_material() got an unexpected keyword argument 'categories'")
  ∧ calls run.2 = []
  ∧ run.1 ≠ Ok {| category := "Other"; subcategory := "Other"; grade := "Other" |}
  ∧ run.1 ≠ Raise (KeyError (VStr "Other")).
Proof.
  cbv zeta.
  assert (Hno : VStr "Other" ∉ get_categories steel_taxonomy).
  { intros Hin. by apply list_elem_of_singleton in Hin. }
  rewrite (start_workflow_unexpected_keyword mock_garbage "steel" steel_taxonomy w0
             "a material" eq_refl).
  split; [ done | ].
  split; [ by apply get_subcategories_absent | ].
  repeat split; done.
Qed.

(** C2: with the taxonomy [{Metal: {Ferrous: [Steel-A36]}}] and an oracle
    that always answers with a member of the options, no stage of the
    workflow resolves to a value: the oracle would answer the category
    stage with the exact member [Metal], but the call of that stage raises
    [TypeError] before the oracle is asked, and the run ends there. *)
Theorem start_workflow_resolves_no_stage :
  let categories := get_categories steel_taxonomy in
  let run := start_workflow mock_exact "steel" steel_taxonomy w0 in
  llm mock_exact (calls w0) (Classify "steel" "a material" categories) = Reply "Metal"
  ∧ VStr "Metal" ∈ categories
  ∧ run.1 = Raise (TypeError
       "classify_material() got an unexpected keyword argument 'categories'")
  ∧ calls run.2 = []
  ∧ forall record, run.1 ≠ Ok record.
Proof.
  cbv zeta.
  rewrite (start_workflow_unexpected_keyword mock_exact "steel" steel_taxonomy w0
             "a material" eq_refl).
  split; [ reflexivity | ]. split; [ apply list_elem_of_here | ].
  split; [ reflexivity | ]. split; [ reflexivity | ].
  intros record. discriminate.
Qed.

(** ** A stage of the workflow *)

Lemma check_and_correct_member e answer options w :
  VStr answer ∈ options ->
  check_and_correct e answer options w
  = (Ok (if bool_decide (answer = EmptyString) then "Other"%string else answer), w).
Proof.
  intros Hin. unfold check_and_correct, bind, ret.
  rewrite bool_decide_eq_true_2 by done. simpl.
  by case_bool_decide.
Qed.

Lemma check_and_correct_not_member e answer options w :
  VStr answer ∉ options ->
  check_and_correct e answer options w
  = match correct_answer_from_list e answer options default_counter
            default_max_attempts w with
    | (Ok (Some v), w') =>
        (Ok (if bool_decide (v = EmptyString) then "Other"%string else v), w')
    | (Ok None, w') => (Ok "Other"%string, w')
    | (Raise ex, w') => (Raise ex, w')
    end.
Proof.
  intros Hin. unfold check_and_correct, bind, ret.
  rewrite bool_decide_eq_false_2 by done. simpl.
  destruct (correct_answer_from_list e answer options default_counter
              default_max_attempts w) as [[[v|]|ex] w']; simpl; try done.
Qed.

Lemma resolve_stage_reply e material_name material_info options w first :
  llm e (calls w) (Classify material_name material_info options) = Reply first ->
  resolve_stage e material_name material_info options w
  = check_and_correct e first options
      (invoke e (Classify material_name material_info options) w).2.
Proof.
  intros Hllm. unfold resolve_stage, py_call.
  rewrite classify_material_call_by_position.
  unfold bind, classify_material, invoke. rewrite Hllm. reflexivity.
Qed.

(** X22: in a stage that passes its options by position, when
    the oracle's first answer [first] can be read, the stage resolves to
    [first] if it is a non-empty member of the options; otherwise to the
    value of the corrector if there is one (a member of the options) and it
    is not empty; it resolves to [Other] when that value is empty or absent,
    and raises when the corrector does.  A resolved value is a member of the
    options or [Other], and when neither the empty string nor [Other] is an
    option it is a member exactly when the first answer is one or the
    corrector returns a value. *)
Theorem resolve_stage_outcome e material_name material_info options w first :
  llm e (calls w) (Classify material_name material_info options) = Reply first ->
  let w1 := (invoke e (Classify material_name material_info options) w).2 in
  let corrected :=
    correct_answer_from_list e first options default_counter default_max_attempts w1 in
  let run := resolve_stage e material_name material_info options w in
  (VStr first ∈ options ->
   run = (Ok (if bool_decide (first = EmptyString) then "Other"%string else first), w1))
  ∧ (VStr first ∉ options ->
     match corrected.1 with
     | Ok (Some v) =>
         VStr v ∈ options
         ∧ run = (Ok (if bool_decide (v = EmptyString) then "Other"%string else v),
                  corrected.2)
     | Ok None => run = (Ok "Other"%string, corrected.2)
     | Raise ex => run = (Raise ex, corrected.2)
     end)
  ∧ (forall resolved, run.1 = Ok resolved ->
     (VStr resolved ∈ options \/ resolved = "Other"%string)
     ∧ (VStr EmptyString ∉ options -> VStr "Other" ∉ options ->
        (VStr resolved ∈ options
         <-> VStr first ∈ options \/ exists v, corrected.1 = Ok (Some v)))).
Proof.
  intros Hllm w1 corrected run.
  assert (Hrun : run = check_and_correct e first options w1)
    by (by apply resolve_stage_reply).
  assert (Hcorr : forall v, corrected.1 = Ok (Some v) -> VStr v ∈ options)
    by (intros v; apply corrector_returns_member).
  destruct (decide (VStr first ∈ options)) as [Hin|Hnotin].
  - rewrite (check_and_correct_member _ _ _ _ Hin) in Hrun.
    split; [ done | split; [ done | ] ].
    intros resolved. rewrite Hrun. simpl. intros [= <-].
    case_bool_decide as Hempty.
    + split; [ by right | ]. intros Hno. subst first. contradiction.
    + split; [ by left | ]. intros _ _. split; [ by left | done ].
  - rewrite (check_and_correct_not_member _ _ _ _ Hnotin) in Hrun.
    fold corrected in Hrun.
    destruct corrected as [[[v|]|ex] w2] eqn:Hc; simpl in *.
    + specialize (Hcorr v eq_refl).
      split; [ done | split; [ done | ] ].
      intros resolved. rewrite Hrun. simpl. intros [= <-].
      case_bool_decide as Hempty.
      * split; [ by right | ]. intros Hno. subst v. contradiction.
      * split; [ by left | ]. intros _ _. split; [ | done ].
        intros _. right. by exists v.
    + split; [ done | split; [ done | ] ].
      intros resolved. rewrite Hrun. simpl. intros [= <-].
      split; [ by right | ]. intros _ Hother. split; [ done | ].
      intros [Hin|[v Hv]]; [ done | discriminate ].
    + split; [ done | split; [ done | ] ].
      intros resolved. rewrite Hrun. discriminate.
Qed.

Lemma resolve_stage_outcome_witness :
  resolve_stage mock_exact "steel" "a material" [VStr "Ferrous"] w0
  = (Ok "Ferrous"%string,
     {| calls := [Classify "steel" "a material" [VStr "Ferrous"]]; stdout := [] |}).
Proof.
  apply (resolve_stage_outcome mock_exact "steel" "a material" [VStr "Ferrous"] w0
           "Ferrous" eq_refl).
  apply list_elem_of_here.
Defined.

(** ** Dictionaries *)

Section DictFacts.
Context {V : Type}.
Implicit Types (d : Dict.t V) (k : value) (v : V).

Lemma dict_get_set_eq k v d : Dict.get k (Dict.set k v d) = Some v.
Proof.
  induction d as [|[k' v'] d IH]; simpl.
  - by rewrite decide_True.
  - destruct (decide (k = k')) as [->|Hne]; simpl.
    + by rewrite decide_True.
    + by rewrite decide_False.
Qed.

Lemma dict_get_set_ne k k' v d :
  k ≠ k' -> Dict.get k' (Dict.set k v d) = Dict.get k' d.
Proof.
  intros Hne. induction d as [|[k0 v0] d IH]; simpl.
  - by rewrite decide_False.
  - destruct (decide (k = k0)) as [->|Hne0]; simpl.
    + by rewrite !decide_False.
    + destruct (decide (k' = k0)); [ done | apply IH ].
Qed.

Lemma dict_get_None k d : Dict.get k d = None <-> k ∉ Dict.keys d.
Proof.
  unfold Dict.keys. induction d as [|[k' v'] d IH]; simpl.
  - split; [ intros _; apply not_elem_of_nil | done ].
  - rewrite not_elem_of_cons. destruct (decide (k = k')) as [->|Hne].
    + split; [ done | intros [? _]; done ].
    + rewrite IH. tauto.
Qed.

Lemma dict_contains_get k d :
  Dict.contains k d = true <-> is_Some (Dict.get k d).
Proof.
  unfold Dict.contains. rewrite bool_decide_eq_true.
  rewrite <- not_eq_None_Some, dict_get_None.
  split; [ tauto | apply dec_stable ].
Qed.

Lemma dict_getitem_in k d :
  k ∈ Dict.keys d -> exists v, Dict.get k d = Some v ∧ Dict.getitem k d = Ok v.
Proof.
  intros Hin. unfold Dict.getitem.
  destruct (Dict.get k d) as [v|] eqn:Hget; [ by exists v | ].
  by apply dict_get_None in Hget.
Qed.

Lemma dict_set_set k v v' d : Dict.set k v (Dict.set k v' d) = Dict.set k v d.
Proof.
  induction d as [|[k' v0] d IH]; simpl.
  - by rewrite decide_True.
  - destruct (decide (k = k')) as [->|Hne]; simpl.
    + by rewrite decide_True.
    + rewrite decide_False by done. by rewrite IH.
Qed.

Lemma dict_set_nonempty k v d : Dict.set k v d ≠ [].
Proof. destruct d as [|[k' v'] d]; simpl; [ done | by destruct (decide (k = k')) ]. Qed.

Lemma dict_keys_set k v d :
  Dict.keys (Dict.set k v d)
  = if Dict.contains k d then Dict.keys d else Dict.keys d ++ [k].
Proof.
  unfold Dict.contains, Dict.keys.
  induction d as [|[k' v'] d IH]; csimpl; [ done | ].
  destruct (decide (k = k')) as [->|Hne]; csimpl.
  - rewrite bool_decide_eq_true_2; [ done | apply list_elem_of_here ].
  - rewrite IH. case_bool_decide as Hin.
    + rewrite bool_decide_eq_true_2; [ done | by apply list_elem_of_further ].
    + rewrite bool_decide_eq_false_2; [ done | ].
      rewrite not_elem_of_cons. done.
Qed.

Lemma dict_keys_set_NoDup k v d :
  NoDup (Dict.keys d) -> NoDup (Dict.keys (Dict.set k v d)).
Proof.
  intros Hnd. rewrite dict_keys_set. unfold Dict.contains.
  case_bool_decide as Hin; [ done | ].
  apply NoDup_app. split; [ done | ]. split.
  - intros x Hx Hx'. apply list_elem_of_singleton in Hx'. by subst.
  - apply NoDup_singleton.
Qed.
End DictFacts.

(** ** One row of the sheet *)

Lemma get_grades_get (t : taxonomy) c s :
  get_grades t c s
  = match Dict.get c t with
    | Some subs =>
        match Dict.get s subs with
        | Some grades => Ok grades
        | None => Raise (KeyError s)
        end
    | None => Raise (KeyError c)
    end.
Proof.
  unfold get_grades, Dict.getitem, rbind.
  by destruct (Dict.get c t).
Qed.

Lemma grades_of_get (t : taxonomy) c s :
  grades_of t c s = default [] (Dict.get s (default [] (Dict.get c t))).
Proof.
  unfold grades_of. rewrite get_grades_get.
  destruct (Dict.get c t) as [subs|]; simpl; [ | done ].
  by destruct (Dict.get s subs).
Qed.

(** The three guarded insertions amount to one update of the branch. *)
Lemma record_grade_eq c s g (d : taxonomy) :
  let subs := default [] (Dict.get c d) in
  let grades := default [] (Dict.get s subs) in
  record_grade c s g d
  = Ok (Dict.set c
          (Dict.set s (if bool_decide (g ∈ grades) then grades else grades ++ [g])
             subs) d).
Proof.
  intros subs grades. subst grades subs. unfold record_grade, rbind, Dict.getitem.
  destruct (Dict.contains c d) eqn:Hc.
  - apply dict_contains_get in Hc as [subs Hsubs]. rewrite Hsubs. simpl.
    destruct (Dict.contains s subs) eqn:Hs.
    + apply dict_contains_get in Hs as [grades Hgrades]. by rewrite Hgrades.
    + assert (Hnone : Dict.get s subs = None).
      { destruct (Dict.get s subs) eqn:Hget; [ | done ].
        assert (Dict.contains s subs = true) by (apply dict_contains_get; eauto).
        congruence. }
      rewrite dict_get_set_eq, Hnone. simpl.
      by rewrite (dict_set_set s [g] [] subs).
  - assert (Hnone : Dict.get c d = None).
    { destruct (Dict.get c d) eqn:Hget; [ | done ].
      assert (Dict.contains c d = true) by (apply dict_contains_get; eauto).
      congruence. }
    rewrite dict_get_set_eq, Hnone. simpl.
    rewrite !decide_True by done. simpl.
    by rewrite (dict_set_set c _ [] d).
Qed.

Lemma tax_wf_branch (d : taxonomy) c :
  tax_wf d ->
  let subs := default [] (Dict.get c d) in
  NoDup (Dict.keys subs)
  ∧ forall s grades, Dict.get s subs = Some grades -> grades ≠ [] ∧ NoDup grades.
Proof.
  intros [_ Hwf]. destruct (Dict.get c d) as [subs|] eqn:Hget; simpl.
  - destruct (Hwf c subs Hget) as (_ & Hnd & Hgrades). done.
  - split; [ apply NoDup_nil_2 | done ].
Qed.

Lemma record_grade_spec c s g (d : taxonomy) :
  tax_wf d ->
  exists d',
    record_grade c s g d = Ok d'
    ∧ tax_wf d'
    ∧ forall c' s' g',
        g' ∈ grades_of d' c' s'
        <-> g' ∈ grades_of d c' s' \/ (c' = c ∧ s' = s ∧ g' = g).
Proof.
  intros Hwf. eexists. split; [ apply record_grade_eq | ].
  set (subs := default [] (Dict.get c d)).
  set (grades := default [] (Dict.get s subs)).
  set (grades' := if bool_decide (g ∈ grades) then grades else grades ++ [g]).
  destruct (tax_wf_branch d c Hwf) as [Hnd_subs Hsubs]. fold subs in Hnd_subs, Hsubs.
  assert (Hgrades : NoDup grades).
  { subst grades. destruct (Dict.get s subs) as [gs|] eqn:Hget; simpl.
    - by destruct (Hsubs s gs Hget).
    - apply NoDup_nil_2. }
  assert (Hin' : forall g', g' ∈ grades' <-> g' ∈ grades \/ g' = g).
  { intros g'. subst grades'. case_bool_decide as Hin.
    - split; [ by left | intros [?| ->]; done ].
    - rewrite elem_of_app, list_elem_of_singleton. done. }
  assert (Hgrades' : grades' ≠ [] ∧ NoDup grades').
  { split.
    - intros Hnil. assert (Hg : g ∈ grades') by (apply Hin'; by right).
      rewrite Hnil in Hg. by apply not_elem_of_nil in Hg.
    - subst grades'. case_bool_decide as Hin; [ done | ].
      apply NoDup_app. split; [ done | ]. split; [ | apply NoDup_singleton ].
      intros x Hx Hx'. apply list_elem_of_singleton in Hx'. by subst. }
  split.
  - destruct Hwf as [Hnd Hwf]. split; [ by apply dict_keys_set_NoDup | ].
    intros c' subs'. destruct (decide (c = c')) as [<-|Hne].
    + rewrite dict_get_set_eq. intros [= <-].
      split; [ apply dict_set_nonempty | ].
      split; [ by apply dict_keys_set_NoDup | ].
      intros s' gs. destruct (decide (s = s')) as [<-|Hne].
      * rewrite dict_get_set_eq. by intros [= <-].
      * rewrite dict_get_set_ne by done. apply Hsubs.
    + rewrite dict_get_set_ne by done. apply Hwf.
  - intros c' s' g'. rewrite !grades_of_get.
    destruct (decide (c = c')) as [<-|Hne].
    + rewrite dict_get_set_eq. simpl. fold subs.
      destruct (decide (s = s')) as [<-|Hne].
      * rewrite dict_get_set_eq. simpl. fold grades. rewrite Hin'. intuition auto.
      * rewrite dict_get_set_ne by done. intuition congruence.
    + rewrite dict_get_set_ne by done. intuition congruence.
Qed.

Lemma py_not_cell_false (c : cell) :
  py_not_cell c = false <-> exists v, c = Some v ∧ truthy v = true.
Proof.
  destruct c as [v|]; simpl.
  - rewrite negb_false_iff. split; [ by exists v | by intros (? & [= <-] & ?) ].
  - split; [ done | by intros (? & ? & ?) ].
Qed.

Lemma loop_body_gives r (d : taxonomy) c s g :
  row_gives r c s g -> loop_body r d = record_grade c s g d.
Proof.
  intros (H0 & H5 & H6 & Hg & Hc & Hs).
  unfold loop_body, py_index, rbind. rewrite H0, H5, H6. simpl.
  by rewrite Hg, Hc, Hs.
Qed.

Lemma loop_body_cases r (d : taxonomy) :
  loop_body r d = Raise IndexError
  \/ loop_body r d = Ok d
  \/ exists c s g, row_gives r c s g.
Proof.
  unfold loop_body, py_index, rbind, row_gives.
  destruct (r !! 0%nat) as [[g|]|]; [ | by right; left | by left ].
  destruct (r !! 5%nat) as [c|]; [ | by left ].
  destruct (r !! 6%nat) as [s|]; [ | by left ].
  destruct (py_not_cell c) eqn:Hc; [ by right; left | ].
  destruct (py_not_cell s) eqn:Hs; [ by right; left | ].
  destruct (py_not_cell (Some g)) eqn:Hg; [ by right; left | ].
  apply py_not_cell_false in Hc as (vc & -> & Hc).
  apply py_not_cell_false in Hs as (vs & -> & Hs).
  apply py_not_cell_false in Hg as (vg & [= <-] & Hg).
  right; right. by exists vc, vs, g.
Qed.

Lemma loop_body_row_ok r (d : taxonomy) :
  row_ok r = true -> loop_body r d ≠ Raise IndexError.
Proof.
  unfold loop_body, py_index, rbind, row_ok.
  destruct (r !! 0%nat) as [[g|]|]; [ | done | done ].
  intros Hlen%bool_decide_eq_true.
  destruct (lookup_lt_is_Some_2 r 5) as [c ->]; [ lia | ].
  destruct (lookup_lt_is_Some_2 r 6) as [s ->]; [ lia | ].
  destruct (py_not_cell c || py_not_cell s || py_not_cell (Some g)); [ done | ].
  destruct c as [c|], s as [s|]; try done.
  by rewrite record_grade_eq.
Qed.

(** ** The scan of the sheet *)

Lemma row_gives_functional r c s g c' s' g' :
  row_gives r c s g -> row_gives r c' s' g' -> c' = c ∧ s' = s ∧ g' = g.
Proof.
  intros (H0 & H5 & H6 & _) (H0' & H5' & H6' & _).
  rewrite H0 in H0'. rewrite H5 in H5'. rewrite H6 in H6'.
  by simplify_eq.
Qed.

Lemma loop_body_spec r (d d1 : taxonomy) :
  loop_body r d = Ok d1 ->
  tax_wf d ->
  tax_wf d1
  ∧ forall c s g,
      g ∈ grades_of d1 c s <-> g ∈ grades_of d c s \/ row_gives r c s g.
Proof.
  intros Hbody Hwf.
  destruct (loop_body_cases r d) as [Hraise|[Hskip|(c0 & s0 & g0 & Hgives)]].
  - congruence.
  - assert (d1 = d) as -> by congruence.
    split; [ done | ]. intros c s g. split; [ by left | ].
    intros [Hin|Hgives]; [ done | ].
    destruct (record_grade_spec c s g d Hwf) as (d' & Hrec & _ & Hgrades).
    rewrite (loop_body_gives _ _ _ _ _ Hgives), Hrec in Hskip.
    simplify_eq. apply Hgrades. by right.
  - destruct (record_grade_spec c0 s0 g0 d Hwf) as (d' & Hrec & Hwf' & Hgrades).
    rewrite (loop_body_gives _ _ _ _ _ Hgives), Hrec in Hbody. simplify_eq.
    split; [ done | ]. intros c s g. rewrite Hgrades.
    split; (intros [Hin|Hrow]; [ by left | right ]).
    + by destruct Hrow as (-> & -> & ->).
    + by apply (row_gives_functional r c0 s0 g0).
Qed.

Lemma scan_rows_spec rows (d d' : taxonomy) :
  scan_rows rows d = Ok d' ->
  tax_wf d ->
  tax_wf d'
  ∧ forall c s g,
      g ∈ grades_of d' c s
      <-> g ∈ grades_of d c s \/ exists r, r ∈ rows ∧ row_gives r c s g.
Proof.
  revert d. induction rows as [|r rows IH]; intros d; simpl.
  - intros [= <-] Hwf. split; [ done | ]. intros c s g.
    split; [ by left | ]. intros [Hin|(r & Hr & _)]; [ done | ].
    by apply not_elem_of_nil in Hr.
  - unfold rbind. destruct (loop_body r d) as [d1|ex] eqn:Hbody; [ | done ].
    intros Hscan Hwf.
    destruct (loop_body_spec r d d1 Hbody Hwf) as [Hwf1 Hstep].
    destruct (IH d1 Hscan Hwf1) as [Hwf' Hrest].
    split; [ done | ]. intros c s g. rewrite Hrest, Hstep. split.
    + intros [[Hin|Hrow]|(r' & Hr' & Hrow)]; [ by left | right | right ].
      * exists r. split; [ apply list_elem_of_here | done ].
      * exists r'. split; [ by apply list_elem_of_further | done ].
    + intros [Hin|(r' & Hr' & Hrow)]; [ by left; left | ].
      apply elem_of_cons in Hr' as [->|Hr'].
      * by left; right.
      * right. by exists r'.
Qed.

Lemma scan_rows_ok rows (d : taxonomy) :
  forallb row_ok rows = true -> exists d', scan_rows rows d = Ok d'.
Proof.
  revert d. induction rows as [|r rows IH]; intros d; simpl.
  - by exists d.
  - intros [Hr Hrows]%andb_true_iff. unfold rbind.
    destruct (loop_body_cases r d) as [Hraise|[Hskip|(c & s & g & Hgives)]].
    + by apply loop_body_row_ok in Hraise.
    + rewrite Hskip. by apply IH.
    + rewrite (loop_body_gives _ _ _ _ _ Hgives), record_grade_eq. by apply IH.
Qed.

Lemma tax_wf_empty : tax_wf [].
Proof. split; [ apply NoDup_nil_2 | done ]. Qed.

Lemma get_material_data_wf e file w t w' :
  get_material_data e file w = (Ok t, w') -> tax_wf t.
Proof.
  unfold get_material_data.
  destruct (load_workbook e file) as [ws|ex].
  - destruct (scan_rows (iter_rows_from_2 (sheet_rows ws)) []) as [d|ex] eqn:Hscan;
      [ | done ].
    destruct (sheet_error ws); [ done | ]. intros [= <- _].
    by destruct (scan_rows_spec _ _ _ Hscan tax_wf_empty).
  - destruct (is_FileNotFoundError ex); intros [= <- _]; apply tax_wf_empty.
Qed.

(** ** The loader: claims *)

(** C7, as amended: when the workbook cannot be loaded, whether the file does not
    exist or reading it fails otherwise, the loader does not raise: it
    prints one line that reports the error and returns the empty taxonomy. *)
Theorem get_material_data_unreadable e file w ex :
  load_workbook e file = Raise ex ->
  let run := get_material_data e file w in
  run.1 = Ok []
  ∧ calls run.2 = calls w
  ∧ stdout run.2
    = stdout w ++ [if is_FileNotFoundError ex then MsgFileNotFound file
                   else MsgLoadFailed ex].
Proof.
  intros Hload run. subst run. unfold get_material_data. rewrite Hload.
  by destruct (is_FileNotFoundError ex).
Qed.

Lemma get_material_data_unreadable_witness :
  let run := get_material_data mock_garbage "materials.xlsx" w0 in
  run.1 = Ok []
  ∧ calls run.2 = calls w0
  ∧ stdout run.2 = stdout w0 ++ [MsgFileNotFound "materials.xlsx"].
Proof.
  apply (get_material_data_unreadable mock_garbage "materials.xlsx" w0
           FileNotFoundError).
  reflexivity.
Defined.

(** C7, as the specification words it, fails for a file that loads but
    whose sheet cannot be read to its end: the rows are read outside the
    [try] block, so the loader raises the parser's exception and prints
    nothing. *)
Lemma unreadable_as_specified_fails :
  ¬ unreadable_as_specified mock_broken_sheet "materials.xlsx" w0.
Proof.
  intros Hclaim. destruct Hclaim as [Hrun _].
  - right. exists broken_sheet, (OtherException "ParseError"). by split.
  - vm_compute in Hrun. discriminate.
Qed.

(** C8, as amended: for a sheet in which every row after the first has the
    cells that the loop reads, the loader raises nothing and prints nothing;
    the grades it lists under a category and a subcategory are exactly those
    found in column 0 of the rows after the first whose columns 5 and 6
    carry that category and subcategory, all three values present; and no
    category, subcategory or grade is listed twice. *)
Theorem get_material_data_reads e file sheet w :
  load_workbook e file = Ok (delivered sheet) ->
  forallb row_ok (iter_rows_from_2 sheet) = true ->
  exists t,
    get_material_data e file w = (Ok t, w)
    ∧ (forall c s g,
          g ∈ grades_of t c s
          <-> exists i r, (1 <= i)%nat ∧ sheet !! i = Some r ∧ row_gives r c s g)
    ∧ NoDup (get_categories t)
    ∧ (forall c subs, get_subcategories t c = Ok subs -> NoDup subs)
    ∧ (forall c s grades, get_grades t c s = Ok grades -> NoDup grades).
Proof.
  intros Hload Hrows.
  destruct (scan_rows_ok _ [] Hrows) as [t Hscan].
  destruct (scan_rows_spec _ _ _ Hscan tax_wf_empty) as [[Hnd Hwf] Hgrades].
  exists t. split; [ | split; [ | split; [ | split ] ] ].
  - unfold get_material_data. rewrite Hload. cbn [delivered sheet_rows sheet_error].
    by rewrite Hscan.
  - intros c s g. rewrite Hgrades. unfold iter_rows_from_2. split.
    + intros [Hin|(r & Hr & Hrow)].
      { rewrite grades_of_get in Hin. by apply not_elem_of_nil in Hin. }
      apply list_elem_of_lookup in Hr as [i Hi]. rewrite lookup_drop in Hi.
      exists (1 + i)%nat, r. split; [ lia | done ].
    + intros (i & r & Hi & Hr & Hrow). right. exists r. split; [ | done ].
      apply list_elem_of_lookup. exists (i - 1)%nat. rewrite lookup_drop.
      by replace (1 + (i - 1))%nat with i by lia.
  - done.
  - intros c subs. unfold get_subcategories, Dict.getitem, rbind.
    destruct (Dict.get c t) as [subs0|] eqn:Hget; [ | done ].
    intros [= <-]. by destruct (Hwf c subs0 Hget) as (_ & ? & _).
  - intros c s grades. rewrite get_grades_get.
    destruct (Dict.get c t) as [subs0|] eqn:Hget; [ | done ].
    destruct (Dict.get s subs0) as [gs|] eqn:Hget'; [ | done ].
    intros [= <-]. destruct (Hwf c subs0 Hget) as (_ & _ & Hsub).
    by destruct (Hsub s gs Hget').
Qed.

Lemma get_material_data_reads_witness :
  loader_as_specified (workbook_env sample_sheet) "materials.xlsx" sample_sheet w0.
Proof.
  unfold loader_as_specified.
  apply (get_material_data_reads (workbook_env sample_sheet) "materials.xlsx"
           sample_sheet w0); reflexivity.
Defined.

(** C8, as the specification words it, fails on a sheet with fewer than
    seven columns: the row has a grade but no column 5, and the loader
    raises [IndexError] instead of skipping the row. *)
Lemma loader_as_specified_fails :
  ¬ loader_as_specified (workbook_env narrow_sheet) "materials.xlsx" narrow_sheet w0.
Proof.
  intros (t & Hrun & _).
  assert (Hraise : get_material_data (workbook_env narrow_sheet) "materials.xlsx" w0
                   = (Raise IndexError, w0)) by reflexivity.
  rewrite Hraise in Hrun. discriminate.
Qed.

(** C9: in a taxonomy that the loader returns, whatever the rows, every
    category has at least one subcategory and every subcategory at least one
    grade: for a category of the taxonomy, the categories, its subcategories
    and the grades of each of its subcategories are non-empty sequences. *)
Theorem get_material_data_no_empty_branch e file w t w' c :
  get_material_data e file w = (Ok t, w') ->
  c ∈ get_categories t ->
  get_categories t ≠ []
  ∧ exists subs,
      get_subcategories t c = Ok subs
      ∧ subs ≠ []
      ∧ forall s, s ∈ subs ->
          exists grades, get_grades t c s = Ok grades ∧ grades ≠ [].
Proof.
  intros Hrun Hc.
  destruct (get_material_data_wf _ _ _ _ _ Hrun) as [_ Hwf].
  split.
  { intros Hnil. rewrite Hnil in Hc. by apply not_elem_of_nil in Hc. }
  destruct (dict_getitem_in c t Hc) as (subs0 & Hget & Hitem).
  destruct (Hwf c subs0 Hget) as (Hne & _ & Hsub).
  exists (Dict.keys subs0). split; [ | split ].
  - unfold get_subcategories, rbind. by rewrite Hitem.
  - unfold Dict.keys. by destruct subs0.
  - intros s Hs.
    destruct (dict_getitem_in s subs0 Hs) as (grades & Hget' & _).
    exists grades. split; [ | by destruct (Hsub s grades Hget') ].
    rewrite get_grades_get. by rewrite Hget, Hget'.
Qed.

Lemma get_material_data_no_empty_branch_witness :
  get_categories
    [(VStr "Metal", [(VStr "Ferrous", [VStr "Steel-A36"]);
                     (VStr "Aluminium", [VStr "6061"])])] ≠ []
  ∧ exists subs,
      get_subcategories
        [(VStr "Metal", [(VStr "Ferrous", [VStr "Steel-A36"]);
                         (VStr "Aluminium", [VStr "6061"])])] (VStr "Metal") = Ok subs
      ∧ subs ≠ []
      ∧ forall s, s ∈ subs ->
          exists grades,
            get_grades
              [(VStr "Metal", [(VStr "Ferrous", [VStr "Steel-A36"]);
                               (VStr "Aluminium", [VStr "6061"])])] (VStr "Metal") s
            = Ok grades
            ∧ grades ≠ [].
Proof.
  apply (get_material_data_no_empty_branch (workbook_env sample_sheet)
           "materials.xlsx" w0 _ w0 (VStr "Metal")).
  - reflexivity.
  - apply list_elem_of_here.
Defined.

(** ** Look-ups: missing keys *)

(** X1: [get_subcategories] returns exactly for the categories of the
    taxonomy; for any other key it raises [KeyError] with that key. *)
Theorem get_subcategories_key_error (t : taxonomy) c :
  match get_subcategories t c with
  | Ok subs => c ∈ get_categories t
  | Raise ex => (c ∉ get_categories t) ∧ ex = KeyError c
  end.
Proof.
  destruct (decide (c ∈ get_categories t)) as [Hin|Hnotin].
  - destruct (dict_getitem_in c t Hin) as (subs & _ & Hitem).
    unfold get_subcategories, rbind. by rewrite Hitem.
  - by rewrite get_subcategories_absent.
Qed.

(** X2: [get_grades] returns exactly when the subcategory is one of those
    that [get_subcategories] lists for the category; it raises [KeyError]
    with the category when the category is absent, whatever the
    subcategory, and with the subcategory otherwise. *)
Theorem get_grades_key_error (t : taxonomy) c s :
  match get_grades t c s with
  | Ok grades => exists subs, get_subcategories t c = Ok subs ∧ s ∈ subs
  | Raise ex =>
      (get_subcategories t c = Raise (KeyError c) ∧ ex = KeyError c)
      \/ (exists subs, get_subcategories t c = Ok subs ∧ (s ∉ subs) ∧ ex = KeyError s)
  end.
Proof.
  rewrite get_grades_get. unfold get_subcategories, Dict.getitem, rbind.
  destruct (Dict.get c t) as [subs|] eqn:Hc; [ | by left ].
  destruct (Dict.get s subs) as [grades|] eqn:Hs.
  - exists (Dict.keys subs). split; [ done | ].
    destruct (decide (s ∈ Dict.keys subs)) as [|Hnotin]; [ done | ].
    apply dict_get_None in Hnotin. congruence.
  - right. exists (Dict.keys subs). by apply dict_get_None in Hs.
Qed.

(** ** Recording a grade *)

Lemma dict_set_id {V} k (v : V) (d : Dict.t V) :
  Dict.get k d = Some v -> Dict.set k v d = d.
Proof.
  induction d as [|[k' v'] d IH]; simpl; [ done | ].
  destruct (decide (k = k')) as [->|Hne].
  - by intros [= ->].
  - intros Hget. by rewrite IH.
Qed.

Lemma add_new_elem x y l : y ∈ add_new x l <-> y ∈ l \/ y = x.
Proof.
  unfold add_new. case_bool_decide as Hin.
  - split; [ by left | by intros [?| ->] ].
  - by rewrite elem_of_app, list_elem_of_singleton.
Qed.

Lemma dict_keys_set_add_new {V} k (v : V) (d : Dict.t V) :
  Dict.keys (Dict.set k v d) = add_new k (Dict.keys d).
Proof. apply dict_keys_set. Qed.

Lemma subcategories_of_get (t : taxonomy) c :
  subcategories_of t c = Dict.keys (default [] (Dict.get c t)).
Proof.
  unfold subcategories_of, get_subcategories, Dict.getitem, rbind.
  by destruct (Dict.get c t).
Qed.

(** The look-ups after the insertions of lines 42 to 47, in terms of the
    look-ups before. *)
Lemma record_grade_views c s g (d : taxonomy) :
  exists d',
    record_grade c s g d = Ok d'
    ∧ get_categories d' = add_new c (get_categories d)
    ∧ (forall c', subcategories_of d' c'
                  = if decide (c' = c) then add_new s (subcategories_of d c')
                    else subcategories_of d c')
    ∧ (forall c' s', grades_of d' c' s'
                     = if decide (c' = c ∧ s' = s) then add_new g (grades_of d c' s')
                       else grades_of d c' s')
    ∧ (forall c', c' ≠ c -> Dict.get c' d' = Dict.get c' d).
Proof.
  eexists. split; [ apply record_grade_eq | ].
  set (subs := default [] (Dict.get c d)).
  set (grades := default [] (Dict.get s subs)).
  split; [ apply dict_keys_set_add_new | ].
  split; [ | split ].
  - intros c'. rewrite !subcategories_of_get.
    destruct (decide (c' = c)) as [->|Hne].
    + rewrite dict_get_set_eq. simpl. apply dict_keys_set_add_new.
    + by rewrite dict_get_set_ne.
  - intros c' s'. rewrite !grades_of_get.
    destruct (decide (c' = c)) as [->|Hne].
    + rewrite dict_get_set_eq. simpl. fold subs.
      destruct (decide (s' = s)) as [->|Hne].
      * rewrite dict_get_set_eq, decide_True by done. done.
      * rewrite dict_get_set_ne by congruence.
        by rewrite decide_False by (by intros [_ ?]).
    + rewrite dict_get_set_ne by congruence.
      by rewrite decide_False by (by intros [? _]).
  - intros c' Hne. by rewrite dict_get_set_ne.
Qed.

(** X3: whatever the dictionary, the insertions of lines 42 to 47 raise
    nothing, and the recorded triple is found by the three look-ups right
    after: the category is a category, the subcategory one of its
    subcategories and the grade one of the grades of the branch. *)
Theorem record_grade_lookup c s g (d : taxonomy) :
  exists d',
    record_grade c s g d = Ok d'
    ∧ c ∈ get_categories d'
    ∧ (exists subs, get_subcategories d' c = Ok subs ∧ s ∈ subs)
    ∧ (exists grades, get_grades d' c s = Ok grades ∧ g ∈ grades).
Proof.
  destruct (record_grade_views c s g d) as (d' & Hrec & Hcats & Hsubs & Hgrades & _).
  exists d'. split; [ done | ].
  assert (Hs : s ∈ subcategories_of d' c).
  { rewrite Hsubs, decide_True by done. apply add_new_elem. by right. }
  assert (Hg : g ∈ grades_of d' c s).
  { rewrite Hgrades, decide_True by done. apply add_new_elem. by right. }
  unfold subcategories_of in Hs. unfold grades_of in Hg.
  split; [ | split ].
  - rewrite Hcats. apply add_new_elem. by right.
  - destruct (get_subcategories d' c) as [subs|ex];
      [ by exists subs | by apply not_elem_of_nil in Hs ].
  - destruct (get_grades d' c s) as [grades|ex];
      [ by exists grades | by apply not_elem_of_nil in Hg ].
Qed.

(** X4: the insertions of lines 42 to 47 leave every other category as it
    was, keep the categories already present in their positions, and put a
    new category last. *)
Theorem record_grade_frame c s g (d : taxonomy) :
  exists d',
    record_grade c s g d = Ok d'
    ∧ get_categories d'
      = (if bool_decide (c ∈ get_categories d) then get_categories d
         else get_categories d ++ [c])
    ∧ forall c', c' ≠ c ->
        get_subcategories d' c' = get_subcategories d c'
        ∧ forall s', get_grades d' c' s' = get_grades d c' s'.
Proof.
  destruct (record_grade_views c s g d) as (d' & Hrec & Hcats & _ & _ & Hother).
  exists d'. split; [ done | ]. split; [ done | ].
  intros c' Hne. split.
  - unfold get_subcategories, Dict.getitem. by rewrite Hother.
  - intros s'. rewrite !get_grades_get. by rewrite Hother.
Qed.

(** ** Rows and triples *)

Lemma row_triple_gives r c s g :
  row_triple r = Some (c, s, g) <-> row_gives r c s g.
Proof.
  unfold row_triple, row_gives.
  destruct (r !! 0%nat) as [[g0|]|];
    [ | by split; [ | intros (? & ? & ? & _) ] | by split; [ | intros (? & ? & ? & _) ] ].
  destruct (r !! 5%nat) as [[c0|]|];
    [ | by split; [ | intros (? & ? & ? & _) ] | by split; [ | intros (? & ? & ? & _) ] ].
  destruct (r !! 6%nat) as [[s0|]|];
    [ | by split; [ | intros (? & ? & ? & _) ] | by split; [ | intros (? & ? & ? & _) ] ].
  destruct (truthy c0) eqn:Hc, (truthy s0) eqn:Hs, (truthy g0) eqn:Hg; simpl;
    split; try (intros [= <- <- <-]; done); try discriminate;
    intros (? & ? & ? & ? & ? & ?); simplify_eq; try done; congruence.
Qed.

Lemma loop_body_triple r (d : taxonomy) :
  row_ok r = true ->
  loop_body r d
  = match row_triple r with
    | Some (c, s, g) => record_grade c s g d
    | None => Ok d
    end.
Proof.
  intros Hok.
  destruct (row_triple r) as [[[c s] g]|] eqn:Htriple.
  - apply loop_body_gives. by apply row_triple_gives.
  - destruct (loop_body_cases r d) as [Hraise|[Hskip|(c & s & g & Hgives)]].
    + by apply loop_body_row_ok in Hraise.
    + done.
    + apply row_triple_gives in Hgives. congruence.
Qed.

Lemma loop_body_not_ok r (d : taxonomy) :
  row_ok r = false -> loop_body r d = Raise IndexError.
Proof.
  unfold row_ok, loop_body, py_index, rbind.
  destruct (r !! 0%nat) as [[g|]|] eqn:H0; [ | done | done ].
  intros Hlen%bool_decide_eq_false.
  destruct (r !! 5%nat) as [c|] eqn:H5; [ | done ].
  destruct (r !! 6%nat) as [s|] eqn:H6; [ | done ].
  apply lookup_lt_Some in H6. lia.
Qed.

Lemma loop_body_Ok_triple r (d d1 : taxonomy) :
  loop_body r d = Ok d1 ->
  row_ok r = true
  ∧ match row_triple r with
    | Some (c, s, g) => record_grade c s g d = Ok d1
    | None => d1 = d
    end.
Proof.
  intros Hbody.
  destruct (row_ok r) eqn:Hok.
  - split; [ done | ]. rewrite (loop_body_triple r d Hok) in Hbody.
    destruct (row_triple r) as [[[c s] g]|]; congruence.
  - rewrite (loop_body_not_ok r d Hok) in Hbody. discriminate.
Qed.

Lemma scan_rows_app l1 l2 (d : taxonomy) :
  scan_rows (l1 ++ l2) d
  = match scan_rows l1 d with
    | Ok d1 => scan_rows l2 d1
    | Raise ex => Raise ex
    end.
Proof.
  revert d. induction l1 as [|r l1 IH]; intros d; simpl; [ done | ].
  unfold rbind. destruct (loop_body r d) as [d1|ex]; [ apply IH | done ].
Qed.

Lemma scan_rows_outcome rows (d : taxonomy) :
  match scan_rows rows d with
  | Ok _ => forallb row_ok rows = true
  | Raise ex => ex = IndexError ∧ forallb row_ok rows = false
  end.
Proof.
  revert d. induction rows as [|r rows IH]; intros d; simpl; [ done | ].
  unfold rbind. destruct (row_ok r) eqn:Hok; simpl.
  - rewrite (loop_body_triple r d Hok).
    destruct (row_triple r) as [[[c s] g]|]; [ | apply IH ].
    rewrite record_grade_eq. apply IH.
  - by rewrite (loop_body_not_ok r d Hok).
Qed.

(** X5: when the workbook loads, the loader prints nothing, and it raises
    in two cases only: [IndexError] when some row that the sheet yields
    after the first lacks a cell that the loop reads (no cell at all, or a
    grade and fewer than seven cells); otherwise, the exception of the
    sheet when it fails after yielding its rows, which are read outside the
    [try] block.  The insertions themselves raise nothing. *)
Theorem get_material_data_raises e file ws w :
  load_workbook e file = Ok ws ->
  let run := get_material_data e file w in
  let rows_ok := forallb row_ok (iter_rows_from_2 (sheet_rows ws)) in
  run.2 = w
  ∧ match run.1 with
    | Ok _ => rows_ok = true ∧ sheet_error ws = None
    | Raise ex =>
        (ex = IndexError ∧ rows_ok = false)
        \/ (rows_ok = true ∧ sheet_error ws = Some ex)
    end.
Proof.
  intros Hload. cbv zeta. unfold get_material_data. rewrite Hload.
  pose proof (scan_rows_outcome (iter_rows_from_2 (sheet_rows ws)) []) as Hscan.
  destruct (scan_rows (iter_rows_from_2 (sheet_rows ws)) []) as [d|ex].
  - destruct (sheet_error ws) as [ex|]; simpl; [ by split; [ | right ] | done ].
  - simpl. split; [ done | by left ].
Qed.

Lemma get_material_data_raises_witness :
  let run := get_material_data mock_broken_sheet "materials.xlsx" w0 in
  let rows_ok := forallb row_ok (iter_rows_from_2 (sheet_rows broken_sheet)) in
  run.2 = w0
  ∧ match run.1 with
    | Ok _ => rows_ok = true ∧ sheet_error broken_sheet = None
    | Raise ex =>
        (ex = IndexError ∧ rows_ok = false)
        \/ (rows_ok = true ∧ sheet_error broken_sheet = Some ex)
    end.
Proof.
  apply (get_material_data_raises mock_broken_sheet "materials.xlsx" broken_sheet w0).
  reflexivity.
Defined.

(** ** Rows that change nothing *)

Lemma record_grade_present c s g (d : taxonomy) :
  g ∈ grades_of d c s -> record_grade c s g d = Ok d.
Proof.
  rewrite grades_of_get, record_grade_eq. intros Hin.
  destruct (Dict.get c d) as [subs|] eqn:Hc; simpl in *;
    [ | by apply not_elem_of_nil in Hin ].
  destruct (Dict.get s subs) as [grades|] eqn:Hs; simpl in *;
    [ | by apply not_elem_of_nil in Hin ].
  rewrite bool_decide_eq_true_2 by done.
  rewrite (dict_set_id s grades subs Hs). by rewrite (dict_set_id c subs d Hc).
Qed.

Lemma scan_rows_grades_kept rows (d d' : taxonomy) c s g :
  scan_rows rows d = Ok d' -> g ∈ grades_of d c s -> g ∈ grades_of d' c s.
Proof.
  revert d. induction rows as [|r rows IH]; intros d; simpl.
  - by intros [= <-].
  - unfold rbind. destruct (loop_body r d) as [d1|ex] eqn:Hbody; [ | done ].
    intros Hscan Hin. apply (IH d1 Hscan).
    destruct (loop_body_Ok_triple r d d1 Hbody) as [_ Htriple].
    destruct (row_triple r) as [[[c0 s0] g0]|]; [ | by subst ].
    destruct (record_grade_views c0 s0 g0 d) as (d2 & Hrec & _ & _ & Hgrades & _).
    assert (d2 = d1) as -> by congruence.
    rewrite Hgrades. case_decide; [ | done ].
    apply add_new_elem. by left.
Qed.

(** X6: a row that occurs a second time in the sheet, next to its first
    occurrence or further down, changes nothing: the scan gives the same
    dictionary, or the same exception, as without the second occurrence. *)
Theorem scan_rows_repeated_row l1 r l2 l3 (d : taxonomy) :
  scan_rows (l1 ++ r :: l2 ++ r :: l3) d = scan_rows (l1 ++ r :: l2 ++ l3) d.
Proof.
  rewrite !(scan_rows_app l1).
  destruct (scan_rows l1 d) as [d1|ex]; [ | done ].
  simpl. unfold rbind.
  destruct (loop_body r d1) as [d2|ex] eqn:Hbody; [ | done ].
  rewrite !(scan_rows_app l2).
  destruct (scan_rows l2 d2) as [d3|ex] eqn:Hscan; [ | done ].
  simpl. unfold rbind.
  assert (Hagain : loop_body r d3 = Ok d3); [ | by rewrite Hagain ].
  destruct (loop_body_Ok_triple r d1 d2 Hbody) as [Hok Htriple].
  rewrite (loop_body_triple r d3 Hok).
  destruct (row_triple r) as [[[c s] g]|]; [ | done ].
  apply record_grade_present, (scan_rows_grades_kept l2 d2 d3 c s g Hscan).
  destruct (record_grade_views c s g d1) as (d2' & Hrec & _ & _ & Hgrades & _).
  assert (d2' = d2) as -> by congruence.
  rewrite Hgrades, decide_True by done. apply add_new_elem. by right.
Qed.

(** X7: a row that has the cells the loop reads but records no triple (its
    grade cell is empty, or its grade, category or subcategory is empty, an
    empty string or zero) can be taken out of the sheet: the scan gives the
    same dictionary, or the same exception, without it. *)
Theorem scan_rows_incomplete_row l1 r l2 (d : taxonomy) :
  row_ok r = true ->
  row_triple r = None ->
  scan_rows (l1 ++ r :: l2) d = scan_rows (l1 ++ l2) d.
Proof.
  intros Hok Htriple. rewrite !(scan_rows_app l1).
  destruct (scan_rows l1 d) as [d1|ex]; [ | done ].
  simpl. unfold rbind. by rewrite (loop_body_triple r d1 Hok), Htriple.
Qed.

Lemma scan_rows_incomplete_row_witness :
  scan_rows
    ([[Some (VStr "Steel-A36"); None; None; None; None;
       Some (VStr "Metal"); Some (VStr "Ferrous")]]
     ++ [Some (VStr "X"); None; None; None; None; Some (VStr ""); Some (VInt 0)]
     :: [[None]]) []
  = scan_rows
      ([[Some (VStr "Steel-A36"); None; None; None; None;
         Some (VStr "Metal"); Some (VStr "Ferrous")]]
       ++ [[None]]) [].
Proof. apply scan_rows_incomplete_row; reflexivity. Defined.

(** ** Order of first appearance *)

Lemma filter_drop_absent (P : value -> Prop) `{!forall y, Decision (P y)} x
    (l : list value) :
  ¬ P x -> filter P (filter (fun y => y ≠ x) l) = filter P l.
Proof.
  intros Hx. rewrite list_filter_filter. apply list_filter_iff.
  intros y. split; [ by intros [? _] | ].
  intros Hy. split; [ done | ]. intros ->. contradiction.
Qed.

Lemma filter_swap (P Q : value -> Prop)
    `{!forall y, Decision (P y)} `{!forall y, Decision (Q y)} (l : list value) :
  filter P (filter Q l) = filter Q (filter P l).
Proof. rewrite !list_filter_filter. apply list_filter_iff. tauto. Qed.

Lemma nub_filter (P : value -> Prop) `{!forall y, Decision (P y)} l :
  filter P (nub l) = nub (filter P l).
Proof.
  induction l as [|x l IH]; [ done | ].
  cbn [nub]. rewrite !filter_cons. destruct (decide (P x)) as [Hx|Hx].
  - cbn [nub]. f_equal. by rewrite filter_swap, IH.
  - by rewrite filter_drop_absent, IH.
Qed.

Lemma add_all_nub acc l :
  add_all acc l = acc ++ nub (filter (fun y => y ∉ acc) l).
Proof.
  unfold add_all. revert acc. induction l as [|x l IH]; intros acc.
  - simpl. by rewrite app_nil_r.
  - cbn [foldl]. rewrite IH, filter_cons. unfold add_new.
    case_bool_decide as Hin.
    + by rewrite decide_False by tauto.
    + rewrite decide_True by done. cbn [nub].
      rewrite <- app_assoc. simpl. do 2 f_equal.
      rewrite nub_filter, list_filter_filter. f_equal.
      apply list_filter_iff. intros y.
      rewrite not_elem_of_app, list_elem_of_singleton. tauto.
Qed.

Lemma add_all_nil l : add_all [] l = nub l.
Proof.
  rewrite add_all_nub. simpl. f_equal.
  induction l as [|x l IH]; [ done | ].
  rewrite filter_cons, decide_True by apply not_elem_of_nil. by rewrite IH.
Qed.

Lemma omap_select {A} (P : A -> Prop) `{!forall x, Decision (P x)}
    (f : A -> value) (l : list A) :
  omap (fun x => if decide (P x) then Some (f x) else None) l = f <$> filter P l.
Proof.
  induction l as [|x l IH]; [ done | ].
  cbn [omap list_omap]. rewrite filter_cons.
  destruct (decide (P x)); csimpl; by rewrite IH.
Qed.

Section Views.
Variable view : taxonomy -> list value.
Variable sel : value * value * value -> option value.
Hypothesis view_record : forall c s g d d',
  record_grade c s g d = Ok d' ->
  view d' = match sel (c, s, g) with
            | Some x => add_new x (view d)
            | None => view d
            end.

Lemma scan_rows_view rows (d t : taxonomy) :
  scan_rows rows d = Ok t ->
  view t = add_all (view d) (omap sel (omap row_triple rows)).
Proof.
  revert d. induction rows as [|r rows IH]; intros d; simpl.
  - by intros [= <-].
  - unfold rbind. destruct (loop_body r d) as [d1|ex] eqn:Hbody; [ | done ].
    intros Hscan. rewrite (IH d1 Hscan).
    destruct (loop_body_Ok_triple r d d1 Hbody) as [_ Htriple].
    destruct (row_triple r) as [[[c s] g]|]; [ | by subst ].
    cbn [omap list_omap]. rewrite (view_record c s g d d1 Htriple).
    by destruct (sel (c, s, g)).
Qed.
End Views.

Lemma get_material_data_scan e file ws w t w' :
  load_workbook e file = Ok ws ->
  get_material_data e file w = (Ok t, w') ->
  scan_rows (iter_rows_from_2 (sheet_rows ws)) [] = Ok t.
Proof.
  intros Hload. unfold get_material_data. rewrite Hload.
  destruct (scan_rows (iter_rows_from_2 (sheet_rows ws)) []) as [d|ex]; [ | done ].
  destruct (sheet_error ws); [ done | ]. by intros [= -> _].
Qed.

(** X8: the categories of a loaded taxonomy are the categories of the
    complete rows of the sheet, each once, in the order of their first
    appearance. *)
Theorem get_categories_order e file ws w t w' :
  load_workbook e file = Ok ws ->
  get_material_data e file w = (Ok t, w') ->
  get_categories t = nub ((fun x => x.1.1) <$> sheet_triples (sheet_rows ws)).
Proof.
  intros Hload Hrun.
  pose proof (get_material_data_scan _ _ _ _ _ _ Hload Hrun) as Hscan.
  rewrite (scan_rows_view get_categories (fun x => Some x.1.1)) with (2 := Hscan).
  - rewrite add_all_nil. unfold sheet_triples.
    f_equal.
  - intros c s g d d' Hrec.
    destruct (record_grade_views c s g d) as (d2 & Hrec' & Hcats & _).
    by assert (d2 = d') as -> by congruence.
Qed.

Lemma get_categories_order_witness :
  get_categories sample_taxonomy = nub ((fun x => x.1.1) <$> sheet_triples sample_sheet).
Proof.
  apply (get_categories_order (workbook_env sample_sheet) "materials.xlsx"
           (delivered sample_sheet) w0 sample_taxonomy w0); reflexivity.
Defined.

(** X9: the subcategories listed under a category of a loaded taxonomy are
    the subcategories of the complete rows of that category, each once, in
    the order of their first appearance (none when no such row exists). *)
Theorem get_subcategories_order e file ws w t w' c :
  load_workbook e file = Ok ws ->
  get_material_data e file w = (Ok t, w') ->
  subcategories_of t c
  = nub ((fun x => x.1.2) <$> filter (fun x => x.1.1 = c) (sheet_triples (sheet_rows ws))).
Proof.
  intros Hload Hrun.
  pose proof (get_material_data_scan _ _ _ _ _ _ Hload Hrun) as Hscan.
  rewrite (scan_rows_view (fun d => subcategories_of d c)
             (fun x => if decide (x.1.1 = c) then Some x.1.2 else None))
    with (2 := Hscan).
  - rewrite subcategories_of_get. simpl. rewrite add_all_nil.
    by rewrite (omap_select (fun x => x.1.1 = c)).
  - intros c0 s g d d' Hrec.
    destruct (record_grade_views c0 s g d) as (d2 & Hrec' & _ & Hsubs & _).
    assert (d2 = d') as -> by congruence.
    rewrite Hsubs. simpl. by destruct (decide (c = c0)); destruct (decide (c0 = c));
      try congruence.
Qed.

Lemma get_subcategories_order_witness :
  subcategories_of sample_taxonomy (VStr "Metal")
  = nub ((fun x => x.1.2)
           <$> filter (fun x => x.1.1 = VStr "Metal") (sheet_triples sample_sheet)).
Proof.
  apply (get_subcategories_order (workbook_env sample_sheet) "materials.xlsx"
           (delivered sample_sheet) w0 sample_taxonomy w0); reflexivity.
Defined.

(** X10: the grades listed under a category and a subcategory of a loaded
    taxonomy are the grades of the complete rows of that branch, each once,
    in the order of their first appearance (none when no such row exists). *)
Theorem get_grades_order e file ws w t w' c s :
  load_workbook e file = Ok ws ->
  get_material_data e file w = (Ok t, w') ->
  grades_of t c s
  = nub ((fun x => x.2)
           <$> filter (fun x => x.1.1 = c ∧ x.1.2 = s) (sheet_triples (sheet_rows ws))).
Proof.
  intros Hload Hrun.
  pose proof (get_material_data_scan _ _ _ _ _ _ Hload Hrun) as Hscan.
  rewrite (scan_rows_view (fun d => grades_of d c s)
             (fun x => if decide (x.1.1 = c ∧ x.1.2 = s) then Some x.2 else None))
    with (2 := Hscan).
  - rewrite grades_of_get. simpl. rewrite add_all_nil.
    by rewrite (omap_select (fun x => x.1.1 = c ∧ x.1.2 = s)).
  - intros c0 s0 g d d' Hrec.
    destruct (record_grade_views c0 s0 g d) as (d2 & Hrec' & _ & _ & Hgrades & _).
    assert (d2 = d') as -> by congruence.
    rewrite Hgrades. simpl.
    destruct (decide (c = c0 ∧ s = s0)) as [[-> ->]|Hne].
    + by rewrite decide_True.
    + rewrite decide_False; [ done | ]. intros [-> ->]. by apply Hne.
Qed.

Lemma get_grades_order_witness :
  grades_of sample_taxonomy (VStr "Metal") (VStr "Ferrous")
  = nub ((fun x => x.2)
           <$> filter (fun x => x.1.1 = VStr "Metal" ∧ x.1.2 = VStr "Ferrous")
                 (sheet_triples sample_sheet)).
Proof.
  apply (get_grades_order (workbook_env sample_sheet) "materials.xlsx"
           (delivered sample_sheet) w0 sample_taxonomy w0); reflexivity.
Defined.

(** ** The corrector: budget, result and chain of calls *)

(** X11: a run of the corrector makes at most
    [max max_attempts 3 - counter] oracle calls, and none when that number
    is negative; called as the workflow calls it, with the defaults, it
    makes at most three. *)
Theorem corrector_call_bound e answer options counter max_attempts w :
  exists new,
    calls (correct_answer_from_list e answer options counter max_attempts w).2
    = calls w ++ new
    ∧ Z.of_nat (length new)
      <= Z.max 0 (Z.max max_attempts default_max_attempts - counter).
Proof.
  destruct (corrector_calls_extend e answer options counter max_attempts w)
    as (new & Hnew & Hlen).
  exists new. split; [ done | ]. unfold budget in Hlen. lia.
Qed.

(** X12: the corrector returns a value exactly when its budget is not
    used up on entry and the oracle's reply to the first correction is an
    exact member of the options; the value is that reply.  A success of a
    later attempt is never returned. *)
Theorem corrector_returns_iff e answer options counter max_attempts w v :
  (correct_answer_from_list e answer options counter max_attempts w).1 = Ok (Some v)
  <-> counter < max_attempts
      ∧ llm e (calls w) (Correct answer options) = Reply v
      ∧ VStr v ∈ options.
Proof.
  split.
  - intros Hrun.
    destruct (corrector_returns_first_reply _ _ _ _ _ _ _ Hrun) as [Hllm _].
    pose proof (corrector_returns_member _ _ _ _ _ _ _ Hrun) as Hin.
    split; [ | done ].
    rewrite correct_answer_from_list_step in Hrun.
    destruct (Z_ge_dec counter max_attempts); [ discriminate | lia ].
  - intros (Hlt & Hllm & Hin).
    rewrite correct_answer_from_list_step.
    destruct (Z_ge_dec counter max_attempts); [ lia | ].
    unfold invoke. rewrite Hllm. by rewrite bool_decide_eq_true_2.
Qed.

(** X13: the calls of a run form a chain: every call asks to correct,
    against the same options, the oracle's reply to the call before it, the
    first one asks about the answer given, and a further call is made only
    after a readable reply that is not an option. *)
Theorem corrector_calls_chained e answer options counter max_attempts w :
  exists new,
    calls (correct_answer_from_list e answer options counter max_attempts w).2
    = calls w ++ new
    ∧ chained e options (calls w) answer new.
Proof.
  revert answer counter max_attempts w.
  apply (corrector_ind e options
           (fun answer counter max_attempts w => exists new,
                calls (correct_answer_from_list e answer options counter max_attempts w).2
                = calls w ++ new
                ∧ chained e options (calls w) answer new)).
  intros answer counter max_attempts w IH.
  rewrite correct_answer_from_list_step.
  destruct (Z_ge_dec counter max_attempts) as [Hge|Hlt].
  { exists []. simpl. by rewrite app_nil_r. }
  unfold invoke.
  destruct (llm e (calls w) (Correct answer options)) as [s|ex|ex] eqn:Hllm.
  - case_bool_decide as Hin.
    + exists [Correct answer options]. simpl. split; [ done | ]. split; [ done | by left ].
    + destruct (IH Hlt s {| calls := calls w ++ [Correct answer options];
                            stdout := stdout w |}) as (new & Hnew & Hchain).
      exists (Correct answer options :: new). split.
      * destruct (correct_answer_from_list e s options (counter + 1)
                    default_max_attempts _) as [[o|ex] w2]; simpl in *.
        -- by rewrite Hnew, <- app_assoc.
        -- destruct (is_TypeError ex); simpl; by rewrite Hnew, <- app_assoc.
      * simpl. split; [ done | ]. right. by exists s.
  - exists [Correct answer options]. split; [ by destruct (is_TypeError ex) | ].
    simpl. split; [ done | by left ].
  - exists [Correct answer options]. simpl. split; [ done | ]. split; [ done | by left ].
Qed.

(** ** The corrector: exceptions *)

Lemma corrector_failure_point e answer options counter max_attempts w
    history q later out :
  calls (correct_answer_from_list e answer options counter max_attempts w).2
  = calls w ++ history ++ q :: later ->
  failure_outcome (negb (bool_decide (history = [])))
    (llm e (calls w ++ history) q) = Some out ->
  later = []
  ∧ (correct_answer_from_list e answer options counter max_attempts w).1 = out.
Proof.
  revert answer counter max_attempts w history q later out.
  apply (corrector_ind e options
           (fun answer counter max_attempts w => forall history q later out,
                calls (correct_answer_from_list e answer options counter max_attempts w).2
                = calls w ++ history ++ q :: later ->
                failure_outcome (negb (bool_decide (history = [])))
                  (llm e (calls w ++ history) q) = Some out ->
                later = []
                ∧ (correct_answer_from_list e answer options counter max_attempts w).1
                  = out)).
  intros answer counter max_attempts w IH history q later out.
  rewrite correct_answer_from_list_step.
  destruct (Z_ge_dec counter max_attempts) as [Hge|Hlt].
  { simpl. intros Hcalls _. exfalso.
    rewrite <- (app_nil_r (calls w)) in Hcalls at 1.
    apply app_inv_head in Hcalls. by destruct history. }
  unfold invoke.
  set (Q := Correct answer options).
  assert (Hone : calls w ++ [Q] = calls w ++ history ++ q :: later ->
                 history = [] ∧ q = Q ∧ later = []).
  { intros Heq. apply app_inv_head in Heq.
    destruct history as [|q' h]; simplify_eq/=; [ done | ].
    by destruct h. }
  destruct (llm e (calls w) Q) as [s|ex|ex] eqn:Hllm.
  - case_bool_decide as Hin.
    + simpl. intros Hcalls Hq.
      destruct (Hone Hcalls) as (-> & -> & ->).
      rewrite app_nil_r, Hllm in Hq. discriminate.
    + set (w1 := {| calls := calls w ++ [Q]; stdout := stdout w |}).
      specialize (IH Hlt s w1).
      destruct (corrector_calls_extend e s options (counter + 1)
                  default_max_attempts w1) as (new & Hnew & _).
      destruct (correct_answer_from_list e s options (counter + 1)
                  default_max_attempts w1) as [r w2] eqn:Hrec.
      simpl in Hnew, IH.
      intros Hcalls Hq.
      assert (Hw2 : calls w2 = calls w ++ history ++ q :: later).
      { destruct r as [o|ex]; [ done | by destruct (is_TypeError ex) ]. }
      clear Hcalls. rewrite Hnew in Hw2. simpl in Hw2.
      rewrite <- app_assoc in Hw2. apply app_inv_head in Hw2. simpl in Hw2.
      destruct history as [|q' h]; simplify_eq/=.
      { rewrite app_nil_r, Hllm in Hq. discriminate. }
      specialize (IH h q later).
      rewrite <- !app_assoc in IH. rewrite <- app_assoc in Hnew.
      simpl in IH, Hnew.
      destruct (llm e (calls w ++ Correct answer options :: h) q)
        as [s'|ex|ex] eqn:Hq'; simpl in Hq;
        [ discriminate | | ]; simplify_eq/=.
      * destruct (IH _ Hnew eq_refl) as [-> Hr].
        split; [ done | ]. subst r.
        by destruct (is_TypeError ex) eqn:Hex; simpl; rewrite ?Hex.
      * destruct (IH _ Hnew eq_refl) as [-> Hr].
        split; [ done | ]. subst r. rewrite andb_true_r.
        destruct (is_TypeError ex) eqn:Hex; simpl.
        -- by destruct (negb (bool_decide (h = []))); simpl; rewrite ?Hex.
        -- by rewrite Hex.
  - intros Hcalls Hq.
    assert (Hw1 : calls w ++ [Q] = calls w ++ history ++ q :: later).
    { by destruct (is_TypeError ex). }
    destruct (Hone Hw1) as (-> & -> & ->).
    rewrite app_nil_r, Hllm in Hq. simpl in Hq. simplify_eq.
    split; [ done | ]. by destruct (is_TypeError ex).
  - simpl. intros Hcalls Hq.
    destruct (Hone Hcalls) as (-> & -> & ->).
    rewrite app_nil_r, Hllm in Hq. simpl in Hq. rewrite andb_false_r in Hq.
    by simplify_eq.
Qed.

(** X14: an exception other than [TypeError], raised by the chain call or
    on reading its response at any attempt of a run, ends the run and
    reaches the top-level caller as it is. *)
Theorem corrector_propagates_other_errors e answer options counter max_attempts w
    history q later ex :
  calls (correct_answer_from_list e answer options counter max_attempts w).2
  = calls w ++ history ++ q :: later ->
  llm e (calls w ++ history) q = Unreadable ex
  \/ llm e (calls w ++ history) q = InvokeRaises ex ->
  is_TypeError ex = false ->
  later = []
  ∧ (correct_answer_from_list e answer options counter max_attempts w).1 = Raise ex.
Proof.
  intros Hcalls Hq Hex.
  apply (corrector_failure_point e answer options counter max_attempts w
           history q later (Raise ex) Hcalls).
  destruct Hq as [-> | ->]; simpl; by rewrite Hex.
Qed.

Lemma corrector_propagates_other_errors_witness :
  @nil query = []
  ∧ (correct_answer_from_list mock_timeout_retry "stel" [VStr "Steel"] 0 3 w0).1
    = Raise (OtherException "APITimeoutError").
Proof.
  apply (corrector_propagates_other_errors mock_timeout_retry "stel" [VStr "Steel"]
           0 3 w0 [Correct "stel" [VStr "Steel"]] (Correct "steel" [VStr "Steel"]) []
           (OtherException "APITimeoutError")).
  - reflexivity.
  - right. reflexivity.
  - reflexivity.
Defined.

(** X15: a [TypeError] raised by the chain call itself, which stands
    outside the [try] block, escapes when it happens at the first attempt
    of a run; when it happens in a retry it ends the run and is turned into
    [None], since the recursive call stands inside the caller's [try]
    block. *)
Theorem corrector_type_error_of_call e answer options counter max_attempts w
    history q later msg :
  calls (correct_answer_from_list e answer options counter max_attempts w).2
  = calls w ++ history ++ q :: later ->
  llm e (calls w ++ history) q = InvokeRaises (TypeError msg) ->
  later = []
  ∧ (correct_answer_from_list e answer options counter max_attempts w).1
    = if bool_decide (history = []) then Raise (TypeError msg) else Ok None.
Proof.
  intros Hcalls Hq.
  apply (corrector_failure_point e answer options counter max_attempts w
           history q later _ Hcalls).
  rewrite Hq. simpl. by destruct (bool_decide (history = [])).
Qed.

Lemma corrector_type_error_of_call_witness :
  @nil query = []
  ∧ (correct_answer_from_list mock_type_error_retry "stel" [VStr "Steel"] 0 3 w0).1
    = Ok None.
Proof.
  apply (corrector_type_error_of_call mock_type_error_retry "stel" [VStr "Steel"]
           0 3 w0 [Correct "stel" [VStr "Steel"]] (Correct "steel" [VStr "Steel"]) []
           "expected str"); reflexivity.
Defined.

(** ** The corrector with a readable oracle *)

Lemma corrector_readable_returns e answer options counter max_attempts w :
  readable e ->
  exists o,
    (correct_answer_from_list e answer options counter max_attempts w).1 = Ok o.
Proof.
  intros Hread. revert answer counter max_attempts w.
  apply (corrector_ind e options
           (fun answer counter max_attempts w => exists o,
                (correct_answer_from_list e answer options counter max_attempts w).1
                = Ok o)).
  intros answer counter max_attempts w IH.
  rewrite correct_answer_from_list_step.
  destruct (Z_ge_dec counter max_attempts) as [Hge|Hlt]; [ by eexists | ].
  unfold invoke.
  destruct (Hread (calls w) (Correct answer options)) as [s ->].
  case_bool_decide; [ by eexists | ].
  destruct (IH Hlt s {| calls := calls w ++ [Correct answer options];
                        stdout := stdout w |}) as [o Ho].
  destruct (correct_answer_from_list e s options (counter + 1) default_max_attempts _)
    as [[o'|ex] w2]; simpl in *; [ by eexists | discriminate ].
Qed.

(** X16: with an oracle whose messages can always be read, the corrector
    raises nothing: every run returns, and it returns [None] exactly when
    the budget is used up on entry or the reply to the first correction is
    not an option, whatever the later replies are. *)
Theorem corrector_returns_when_readable e answer options counter max_attempts w :
  readable e ->
  (exists o,
      (correct_answer_from_list e answer options counter max_attempts w).1 = Ok o)
  ∧ ((correct_answer_from_list e answer options counter max_attempts w).1 = Ok None
     <-> counter >= max_attempts
         \/ exists s, llm e (calls w) (Correct answer options) = Reply s
                      ∧ (VStr s ∉ options)).
Proof.
  intros Hread.
  destruct (corrector_readable_returns e answer options counter max_attempts w Hread)
    as [o Ho].
  split; [ by exists o | ].
  destruct (Hread (calls w) (Correct answer options)) as [s Hs].
  split.
  - intros Hnone.
    destruct (Z_ge_dec counter max_attempts) as [Hge|Hlt]; [ by left | right ].
    exists s. split; [ done | ]. intros Hin.
    rewrite correct_answer_from_list_step in Hnone.
    destruct (Z_ge_dec counter max_attempts); [ done | ].
    unfold invoke in Hnone. rewrite Hs in Hnone.
    by rewrite bool_decide_eq_true_2 in Hnone.
  - intros Hcase. destruct o as [v|]; [ exfalso | done ].
    destruct (corrector_returns_first_reply _ _ _ _ _ _ _ Ho) as [Hllm _].
    pose proof (corrector_returns_member _ _ _ _ _ _ _ Ho) as Hin.
    destruct Hcase as [Hge|(s' & Hs' & Hnotin)].
    + rewrite correct_answer_from_list_step in Ho.
      by destruct (Z_ge_dec counter max_attempts).
    + rewrite Hllm in Hs'. by simplify_eq.
Qed.

Lemma corrector_returns_when_readable_witness :
  (exists o,
      (correct_answer_from_list mock_garbage "stel" [VStr "Steel"] 0 3 w0).1 = Ok o)
  ∧ ((correct_answer_from_list mock_garbage "stel" [VStr "Steel"] 0 3 w0).1 = Ok None
     <-> 0 >= 3
         \/ exists s, llm mock_garbage (calls w0) (Correct "stel" [VStr "Steel"])
                      = Reply s
                      ∧ (VStr s ∉ [VStr "Steel"])).
Proof.
  apply (corrector_returns_when_readable mock_garbage "stel" [VStr "Steel"] 0 3 w0).
  intros history q. by eexists.
Defined.

Lemma corrector_exhausts e answer options counter w :
  readable e ->
  never_member e options ->
  let run := correct_answer_from_list e answer options counter default_max_attempts w in
  run.1 = Ok None
  ∧ exists new last,
      calls run.2 = calls w ++ new
      ∧ length new = Z.to_nat (default_max_attempts - counter)
      ∧ stdout run.2
        = stdout w ++ [MsgGaveUp last (Z.max counter default_max_attempts)].
Proof.
  intros Hread Hnever. cbv zeta.
  cut (forall max_attempts, max_attempts = default_max_attempts ->
         (correct_answer_from_list e answer options counter max_attempts w).1
         = Ok None
         ∧ exists new last,
             calls (correct_answer_from_list e answer options counter
                      max_attempts w).2 = calls w ++ new
             ∧ length new = Z.to_nat (default_max_attempts - counter)
             ∧ stdout (correct_answer_from_list e answer options counter
                         max_attempts w).2
               = stdout w ++ [MsgGaveUp last (Z.max counter default_max_attempts)]).
  { intros Hcut. by apply Hcut. }
  intros max_attempts. revert answer counter max_attempts w.
  apply (corrector_ind e options
           (fun answer counter max_attempts w =>
              max_attempts = default_max_attempts ->
              (correct_answer_from_list e answer options counter max_attempts w).1
              = Ok None
              ∧ exists new last,
                  calls (correct_answer_from_list e answer options counter
                           max_attempts w).2 = calls w ++ new
                  ∧ length new = Z.to_nat (default_max_attempts - counter)
                  ∧ stdout (correct_answer_from_list e answer options counter
                              max_attempts w).2
                    = stdout w ++ [MsgGaveUp last (Z.max counter default_max_attempts)])).
  intros answer counter max_attempts w IH ->.
  rewrite correct_answer_from_list_step.
  destruct (Z_ge_dec counter default_max_attempts) as [Hge|Hlt].
  { split; [ done | ]. exists [], answer. simpl. rewrite app_nil_r.
    split; [ done | ]. split; [ lia | ]. by rewrite Z.max_l by lia. }
  unfold invoke.
  destruct (Hread (calls w) (Correct answer options)) as [s Hs]. rewrite Hs.
  rewrite bool_decide_eq_false_2 by (by eapply Hnever).
  destruct (IH Hlt s {| calls := calls w ++ [Correct answer options];
                        stdout := stdout w |} eq_refl)
    as (Hres & new & last & Hnew & Hlen & Hout).
  destruct (correct_answer_from_list e s options (counter + 1) default_max_attempts _)
    as [[o|ex] w2]; simpl in *; [ | discriminate ].
  split; [ done | ]. exists (Correct answer options :: new), last.
  split; [ by rewrite Hnew, <- app_assoc | ].
  split; [ simpl; rewrite Hlen; unfold default_max_attempts in *; lia | ].
  rewrite Hout. do 3 f_equal. lia.
Qed.

(** X17: called with the defaults, as the workflow calls it, and with an
    oracle whose messages can be read but never name an option, the
    corrector makes exactly three oracle calls, prints one line saying that
    it gave up after 3 attempts, and returns [None]. *)
Theorem corrector_exhausts_default_budget e answer options w :
  readable e ->
  never_member e options ->
  let run :=
    correct_answer_from_list e answer options default_counter default_max_attempts w in
  run.1 = Ok None
  ∧ exists new last,
      calls run.2 = calls w ++ new
      ∧ length new = 3%nat
      ∧ stdout run.2 = stdout w ++ [MsgGaveUp last 3].
Proof.
  intros Hread Hnever.
  apply (corrector_exhausts e answer options default_counter w Hread Hnever).
Qed.

Lemma corrector_exhausts_default_budget_witness :
  let run := correct_answer_from_list mock_garbage "stel" [VStr "Steel"]
               default_counter default_max_attempts w0 in
  run.1 = Ok None
  ∧ exists new last,
      calls run.2 = calls w0 ++ new
      ∧ length new = 3%nat
      ∧ stdout run.2 = stdout w0 ++ [MsgGaveUp last 3].
Proof.
  apply (corrector_exhausts_default_budget mock_garbage "stel" [VStr "Steel"] w0).
  - intros history q. by eexists.
  - intros history q s [= <-] Hin. apply list_elem_of_singleton in Hin. discriminate.
Defined.

(** ** The workflow and its stages: resources and outcomes *)

(** X18: whatever the taxonomy and the oracles, [start_workflow] returns
    no record and calls the classification oracle not once: it raises the
    exception of the information oracle when that one fails, and otherwise
    the [TypeError] of the call at the category stage. *)
Theorem start_workflow_never_returns e material_name material_db w :
  start_workflow e material_name material_db w
  = (Raise (match agent_executor e material_name with
            | Ok _ =>
                TypeError
                  "classify_material() got an unexpected keyword argument 'categories'"
            | Raise ex => ex
            end), w).
Proof.
  destruct (agent_executor e material_name) as [info|ex] eqn:Hinfo.
  - by apply (start_workflow_unexpected_keyword e material_name material_db w info).
  - unfold start_workflow, bind, get_material_information, lift. by rewrite Hinfo.
Qed.

(** X19: a stage that passes its options by position makes at least one
    and at most four oracle calls: the classification, then at most three
    corrections. *)
Theorem resolve_stage_call_bound e material_name material_info options w :
  exists new,
    calls (resolve_stage e material_name material_info options w).2
    = calls w ++ Classify material_name material_info options :: new
    ∧ (length new <= 3)%nat.
Proof.
  unfold resolve_stage, py_call. rewrite classify_material_call_by_position.
  unfold bind, classify_material, invoke.
  destruct (llm e (calls w) (Classify material_name material_info options))
    as [first|ex|ex]; [ | exists []; split; [ done | simpl; lia ].. ].
  set (w1 := {| calls := calls w ++ [Classify material_name material_info options];
                stdout := stdout w |}).
  destruct (decide (VStr first ∈ options)) as [Hin|Hnotin].
  - rewrite (check_and_correct_member e first options w1 Hin).
    exists []. split; [ done | simpl; lia ].
  - rewrite (check_and_correct_not_member e first options w1 Hnotin).
    destruct (corrector_calls_extend e first options default_counter
                default_max_attempts w1) as (new & Hnew & Hlen).
    exists new. split; [ | exact Hlen ].
    destruct (correct_answer_from_list e first options default_counter
                default_max_attempts w1) as [[[v|]|ex] w2]; simpl in *;
      by rewrite Hnew, <- app_assoc.
Qed.

(** X20: with an oracle whose messages can always be read, a stage that
    passes its options by position raises nothing: it resolves to a member
    of the options or to [Other]. *)
Theorem resolve_stage_returns_when_readable e material_name material_info options w :
  readable e ->
  exists resolved,
    (resolve_stage e material_name material_info options w).1 = Ok resolved
    ∧ (VStr resolved ∈ options \/ resolved = "Other"%string).
Proof.
  intros Hread.
  destruct (Hread (calls w) (Classify material_name material_info options))
    as [first Hfirst].
  rewrite (resolve_stage_reply e material_name material_info options w first Hfirst).
  set (w1 := (invoke e (Classify material_name material_info options) w).2).
  destruct (decide (VStr first ∈ options)) as [Hin|Hnotin].
  - rewrite (check_and_correct_member e first options w1 Hin). eexists.
    split; [ done | ]. case_bool_decide; [ by right | by left ].
  - rewrite (check_and_correct_not_member e first options w1 Hnotin).
    destruct (corrector_readable_returns e first options default_counter
                default_max_attempts w1 Hread) as [o Ho].
    pose proof (corrector_returns_member e first options default_counter
                  default_max_attempts w1) as Hmember.
    destruct (correct_answer_from_list e first options default_counter
                default_max_attempts w1) as [[[v|]|ex] w2]; simpl in *;
      [ | | discriminate ].
    + eexists. split; [ done | ].
      case_bool_decide; [ by right | left; by apply Hmember ].
    + eexists. split; [ done | by right ].
Qed.

Lemma resolve_stage_returns_when_readable_witness :
  exists resolved,
    (resolve_stage mock_exact "steel" "a material" [VStr "Ferrous"] w0).1 = Ok resolved
    ∧ (VStr resolved ∈ [VStr "Ferrous"] \/ resolved = "Other"%string).
Proof.
  apply (resolve_stage_returns_when_readable mock_exact "steel" "a material"
           [VStr "Ferrous"] w0).
  intros history q. by eexists.
Defined.

(** X21: with an oracle whose messages can be read but never name an
    option (as with every oracle when the options are empty), a stage that
    passes its options by position resolves to [Other] after exactly four
    oracle calls, the classification and three corrections. *)
Theorem resolve_stage_falls_back e material_name material_info options w :
  readable e ->
  never_member e options ->
  let run := resolve_stage e material_name material_info options w in
  run.1 = Ok "Other"%string
  ∧ exists new,
      calls run.2 = calls w ++ Classify material_name material_info options :: new
      ∧ length new = 3%nat.
Proof.
  intros Hread Hnever. cbv zeta.
  destruct (Hread (calls w) (Classify material_name material_info options))
    as [first Hfirst].
  rewrite (resolve_stage_reply e material_name material_info options w first Hfirst).
  set (w1 := (invoke e (Classify material_name material_info options) w).2).
  rewrite (check_and_correct_not_member e first options w1)
    by (by eapply Hnever).
  destruct (corrector_exhausts e first options default_counter w1 Hread Hnever)
    as (Hres & new & last & Hnew & Hlen & _).
  destruct (correct_answer_from_list e first options default_counter
              default_max_attempts w1) as [[[v|]|ex] w2]; simpl in *;
    [ discriminate | | discriminate ].
  split; [ done | ]. exists new. split; [ by rewrite Hnew, <- app_assoc | done ].
Qed.

Lemma resolve_stage_falls_back_witness :
  let run := resolve_stage mock_garbage "steel" "a material" [] w0 in
  run.1 = Ok "Other"%string
  ∧ exists new,
      calls run.2 = calls w0 ++ Classify "steel" "a material" [] :: new
      ∧ length new = 3%nat.
Proof.
  apply (resolve_stage_falls_back mock_garbage "steel" "a material" [] w0).
  - intros history q. by eexists.
  - intros history q s _. apply not_elem_of_nil.
Defined.
